(** * Egg tracker: the webhook interpreter, the rarity classifier, the
    settings and period resolvers and the counting queries of [index.js],
    and the pool and tables of [db.js], embedded and verified.

    The development follows [index.js] function by function; the file holds
    two versions of the program and the first, current one is embedded.
    JavaScript values are embedded as follows.

    - A string is a [string]: a sequence of code units, here the code units
      below 256 (Latin-1).  Case mapping, white space and line terminators
      are those of ECMAScript restricted to that range.
    - A number is a [number]: a binary64 value, written as the rational it
      denotes, or one of the three special values.  Decimal text is rounded
      to the nearest binary64 value, ties to even, by [round_b64].
    - A parsed JSON document is a [JsVal]; an absent property ([undefined])
      is [None] of [option JsVal].
    - A statement that can throw returns a [completion]. *)

From Stdlib Require Import ZArith QArith List String Ascii Bool Lia Lqa.
From Stdlib Require Import DecimalString Permutation.
From Stdlib Require DecimalN.
Import ListNotations.

#[local] Set Warnings "-register-all".

Local Open Scope string_scope.
Local Open Scope Z_scope.

(* ================================================================== *)
(** * Code units and strings *)
(* ================================================================== *)

Module Str.

Definition code (c : ascii) : Z := Z.of_N (N_of_ascii c).

Definition chr (z : Z) : ascii := ascii_of_N (Z.to_N z).

Definition between (lo hi : Z) (c : ascii) : bool :=
  (lo <=? code c) && (code c <=? hi).

(** [0-9] *)
Definition is_digit (c : ascii) : bool := between 48 57 c.

(** The class [\s], which is also what [trim] removes: TAB, LF, VT, FF, CR,
    SP and NBSP (the members of WhiteSpace and LineTerminator below 256). *)
Definition is_space (c : ascii) : bool :=
  between 9 13 c || (code c =? 32) || (code c =? 160).

(** The characters the regular-expression dot does not match. *)
Definition is_line_terminator (c : ascii) : bool :=
  (code c =? 10) || (code c =? 13).

(** [String.prototype.toLowerCase] on one code unit: A-Z, and the Latin-1
    capitals U+00C0..U+00DE except the multiplication sign U+00D7. *)
Definition lower (c : ascii) : ascii :=
  if between 65 90 c then chr (code c + 32)
  else if between 192 222 c && negb (code c =? 215) then chr (code c + 32)
  else c.

Fixpoint toLowerCase (s : string) : string :=
  match s with
  | EmptyString => EmptyString
  | String c r => String (lower c) (toLowerCase r)
  end.

(** Canonicalize of a case-insensitive regular expression without the
    unicode flag, as far as it can identify a code unit with an ASCII
    pattern character: only a-z are folded onto A-Z (a code unit above 127
    never canonicalizes to one below 128). *)
Definition fold (c : ascii) : ascii :=
  if between 97 122 c then chr (code c - 32) else c.

Definition ci_eqb (p c : ascii) : bool := Ascii.eqb (fold p) (fold c).

(** [p] is a prefix of [s]. *)
Fixpoint startsWith (p s : string) : bool :=
  match p, s with
  | EmptyString, _ => true
  | String a p', String b s' => Ascii.eqb a b && startsWith p' s'
  | String _ _, EmptyString => false
  end.

(** [p] matches a prefix of [s] up to case; the rest of [s] is returned. *)
Fixpoint ci_strip_prefix (p s : string) : option string :=
  match p, s with
  | EmptyString, _ => Some s
  | String a p', String b s' =>
      if ci_eqb a b then ci_strip_prefix p' s' else None
  | String _ _, EmptyString => None
  end.

(** [String.prototype.includes] *)
Fixpoint includes (needle s : string) : bool :=
  startsWith needle s ||
  match s with
  | EmptyString => false
  | String _ r => includes needle r
  end.

(** [String.prototype.endsWith] for a one-character suffix. *)
Fixpoint endsWithChar (c : ascii) (s : string) : bool :=
  match s with
  | EmptyString => false
  | String a EmptyString => Ascii.eqb a c
  | String _ r => endsWithChar c r
  end.

(** [s.replace(/egg/gi, "")]: one left-to-right pass over the original
    text; a match is removed and matching resumes after it, any other
    character is kept. *)
Fixpoint strip_egg (s : string) : string :=
  match s with
  | String a (String b (String c r) as t) =>
      if ci_eqb "e" a && ci_eqb "g" b && ci_eqb "g" c then strip_egg r
      else String a (strip_egg t)
  | String a t => String a (strip_egg t)
  | EmptyString => EmptyString
  end.

Fixpoint trimStart (s : string) : string :=
  match s with
  | String c r => if is_space c then trimStart r else s
  | EmptyString => EmptyString
  end.

(** Removes trailing white space: a character is kept when it is not a
    space or something is kept after it. *)
Fixpoint trimEnd (s : string) : string :=
  match s with
  | EmptyString => EmptyString
  | String c r =>
      match trimEnd r with
      | EmptyString => if is_space c then EmptyString else String c EmptyString
      | r' => String c r'
      end
  end.

(** [String.prototype.trim] *)
Definition trim (s : string) : string := trimEnd (trimStart s).

(** The longest prefix of characters satisfying [p], and the rest. *)
Fixpoint span (p : ascii -> bool) (s : string) : string * string :=
  match s with
  | String c r =>
      if p c then let '(a, b) := span p r in (String c a, b)
      else (EmptyString, s)
  | EmptyString => (EmptyString, EmptyString)
  end.

Definition dropWhile (p : ascii -> bool) (s : string) : string :=
  snd (span p s).

End Str.

(* ================================================================== *)
(** * Numbers *)
(* ================================================================== *)

Module Num.

(** A Number value.  A finite value carries the rational it denotes, in
    lowest terms; the two zeros are not distinguished (no operation of the
    program tells them apart). *)
Inductive number : Type :=
| NaN
| PosInf
| NegInf
| Fin (q : Q).

Definition zero : number := Fin 0.

Definition of_Z (z : Z) : number := Fin (inject_Z z).

(** ToBoolean of a number: false for zeros and NaN. *)
Definition truthy (x : number) : bool :=
  match x with
  | NaN => false
  | PosInf | NegInf => true
  | Fin q => negb (Qeq_bool q 0)
  end.

(** [x <= y], false as soon as one side is NaN. *)
Definition leb (x y : number) : bool :=
  match x, y with
  | NaN, _ | _, NaN => false
  | NegInf, _ => true
  | _, PosInf => true
  | PosInf, _ => false
  | _, NegInf => false
  | Fin a, Fin b => Qle_bool a b
  end.

(** [x < y] *)
Definition ltb (x y : number) : bool :=
  match x, y with
  | NaN, _ | _, NaN => false
  | PosInf, _ => false
  | _, NegInf => false
  | NegInf, _ => true
  | _, PosInf => true
  | Fin a, Fin b => negb (Qle_bool b a)
  end.

(** [x >= y] *)
Definition geb (x y : number) : bool := leb y x.

(** ** Rounding to binary64 *)

(** [n * 2^k / d] as a fraction of integers, for any sign of [k]. *)
Definition scaled (n d k : Z) : Z * Z :=
  if 0 <=? k then (n * 2 ^ k, d) else (n, d * 2 ^ (- k)).

(** floor (log2 (n / d)) for positive [n] and [d]. *)
Definition ilog2 (n d : Z) : Z :=
  let l := Z.log2 n - Z.log2 d in
  let '(a, b) := scaled n d (- l) in
  if b <=? a then l else l - 1.

(** The binary64 value nearest to [n / d] ([0 <= n], [0 < d]), ties to the
    even significand: the spacing of the values around [n / d] is [2^ex],
    with 53 significant bits above the subnormal range, [2^-1074] in it. *)
Definition round_b64 (n d : Z) : number :=
  if n <=? 0 then zero
  else
    let ex := Z.max (ilog2 n d - 52) (-1074) in
    let '(a, b) := scaled n d (- ex) in
    let m := a / b in
    let r := a mod b in
    let m' := if 2 * r <? b then m
              else if b <? 2 * r then m + 1
              else if Z.even m then m else m + 1 in
    if (971 <? ex) || ((ex =? 971) && (2 ^ 53 <=? m')) then PosInf
    else
      let '(p, q) := scaled m' 1 ex in
      Fin (Qred (Qmake p (Z.to_pos q))).

(** The binary64 value nearest to the rational [q] of either sign. *)
Definition round_Q (q : Q) : number :=
  let n := Qnum q in
  let d := Zpos (Qden q) in
  if 0 <=? n then round_b64 n d
  else match round_b64 (- n) d with
       | Fin r => Fin (Qopp r)
       | PosInf => NegInf
       | other => other
       end.

(** ** Decimal text to number *)

(** The value of a run of decimal digits. *)
Definition digit_value (c : ascii) : Z := Str.code c - 48.

Fixpoint digits_value (acc : Z) (s : string) : Z :=
  match s with
  | EmptyString => acc
  | String c r => digits_value (10 * acc + digit_value c) r
  end.

(** The mathematical value [m * 10^e] as a rational. *)
Definition dec_Q (m e : Z) : Q :=
  if 0 <=? e then inject_Z (m * 10 ^ e) else Qmake m (Z.to_pos (10 ^ (- e))).

(** An optional sign: [true] when the text starts with a minus. *)
Definition take_sign (s : string) : bool * string :=
  match s with
  | String "-" r => (true, r)
  | String "+" r => (false, r)
  | _ => (false, s)
  end.

(** The value of an ExponentPart at the head of [s], 0 when there is none. *)
Definition exponent_part (s : string) : Z :=
  match s with
  | String c r =>
      if Str.ci_eqb "e" c then
        let '(neg, r') := take_sign r in
        let '(ds, _) := Str.span Str.is_digit r' in
        match ds with
        | EmptyString => 0
        | _ => if neg then - digits_value 0 ds else digits_value 0 ds
        end
      else 0
  | EmptyString => 0
  end.

(** [parseFloat(s)]: leading white space is skipped and the longest prefix
    that is a StrDecimalLiteral is converted; NaN when there is none. *)
Definition parseFloat (s : string) : number :=
  let '(neg, s1) := take_sign (Str.trimStart s) in
  if Str.startsWith "Infinity" s1 then (if neg then NegInf else PosInf)
  else
    let '(ip, r1) := Str.span Str.is_digit s1 in
    let '(fp, r2) :=
      match r1 with
      | String "." t => Str.span Str.is_digit t
      | _ => (EmptyString, r1)
      end in
    match ip, fp with
    | EmptyString, EmptyString => NaN
    | _, _ =>
        let m := digits_value 0 (ip ++ fp) in
        let e := exponent_part r2 - Z.of_nat (String.length fp) in
        round_Q (dec_Q (if neg then - m else m) e)
    end.

(** ** [parseInt] *)

(** The value of a digit in a radix up to 36. *)
Definition radix_digit (c : ascii) : option Z :=
  if Str.is_digit c then Some (Str.code c - 48)
  else if Str.between 97 122 c then Some (Str.code c - 87)
  else if Str.between 65 90 c then Some (Str.code c - 55)
  else None.

(** The longest prefix of [s] made of digits of radix [r], read as an
    integer; [None] when that prefix is empty. *)
Fixpoint radix_digits (r : Z) (acc : option Z) (s : string) : option Z :=
  match s with
  | EmptyString => acc
  | String c rest =>
      match radix_digit c with
      | Some d =>
          if d <? r
          then radix_digits r (Some (r * match acc with Some a => a | None => 0 end + d)) rest
          else acc
      | None => acc
      end
  end.

(** [parseInt(s, radix)]; [radix] is [None] when the argument is omitted and
    the result is [None] when it is NaN.  Leading white space and a sign
    are skipped; a [0x] prefix selects radix 16 when the radix is omitted
    or 16. *)
Definition parseInt (s : string) (radix : option Z) : option Z :=
  let '(neg, s1) := take_sign (Str.trimStart s) in
  let r0 := match radix with Some r => r | None => 0 end in
  if negb (r0 =? 0) && ((r0 <? 2) || (36 <? r0)) then None
  else
    let strip := (r0 =? 0) || (r0 =? 16) in
    let r1 := if r0 =? 0 then 10 else r0 in
    let '(r, s2) :=
      match s1 with
      | String "0" (String x rest) =>
          if strip && Str.ci_eqb "x" x then (16, rest) else (r1, s1)
      | _ => (r1, s1)
      end in
    match radix_digits r None s2 with
    | Some v => Some (if neg then - v else v)
    | None => None
    end.

(** ** Number to text *)

Definition Z_to_string (z : Z) : string :=
  NilZero.string_of_uint (N.to_uint (Z.to_N z)).

Fixpoint zeros (n : nat) : string :=
  match n with
  | O => EmptyString
  | S n' => String "0" (zeros n')
  end.

(** floor (log10 (a / b)) for positive [a], [b]: the estimate from the
    binary logarithm is off by at most one. *)
Definition ilog10 (a b : Z) : Z :=
  let est := ilog2 a b * 1233 / 4096 in
  let le10 e := let q := dec_Q 1 e in
                Qnum q * b <=? a * Zpos (Qden q) in
  if le10 (est + 1) then est + 1
  else if le10 est then est
  else est - 1.

(** The shortest decimal significand of [x = a / b]: for [k = 1, 2, ...]
    digits, the integers [s] next to [x / 10^(n-k)] are tried, the nearer
    first and the even one on a tie; the first that reads back as [x] is
    returned with the position [n] of its decimal point. *)
Fixpoint shortest (fuel : nat) (k : Z) (x : number) (a b n : Z)
  : option (Z * Z) :=
  match fuel with
  | O => None
  | S fuel' =>
      let e := n - k in
      let '(p, q) := (if 0 <=? e then (a, b * 10 ^ e) else (a * 10 ^ (- e), b)) in
      let lo := p / q in
      let r := p mod q in
      let hi := lo + 1 in
      let reads s :=
        match x, round_Q (dec_Q s e) with
        | Fin u, Fin v => Qeq_bool u v
        | _, _ => false
        end in
      let first := if 2 * r <? q then lo
                   else if q <? 2 * r then hi
                   else if Z.even lo then lo else hi in
      let second := if first =? lo then hi else lo in
      let pick s := if s =? 10 ^ k then (10 ^ (k - 1), n + 1) else (s, n) in
      if reads first then Some (pick first)
      else if reads second then Some (pick second)
      else shortest fuel' (k + 1) x a b n
  end.

(** Number::toString(x), radix 10. *)
Definition toString (x : number) : string :=
  match x with
  | NaN => "NaN"
  | PosInf => "Infinity"
  | NegInf => "-Infinity"
  | Fin q =>
      if Qeq_bool q 0 then "0"
      else
        let neg := Qnum q <? 0 in
        let a := Z.abs (Qnum q) in
        let b := Zpos (Qden q) in
        let body :=
          match shortest 25 1 (Fin (Qmake a (Qden q))) a b (ilog10 a b + 1) with
          | None => "NaN"
          | Some (s, n) =>
              let ds := Z_to_string s in
              let k := Z.of_nat (String.length ds) in
              if (k <=? n) && (n <=? 21) then
                ds ++ zeros (Z.to_nat (n - k))
              else if (0 <? n) && (n <=? 21) then
                substring 0 (Z.to_nat n) ds ++ "." ++
                substring (Z.to_nat n) (Z.to_nat (k - n)) ds
              else if (-6 <? n) && (n <=? 0) then
                "0." ++ zeros (Z.to_nat (- n)) ++ ds
              else
                let ex := (if 0 <=? n - 1 then "+" else "-") ++
                          Z_to_string (Z.abs (n - 1)) in
                if k =? 1 then ds ++ "e" ++ ex
                else substring 0 1 ds ++ "." ++
                     substring 1 (Z.to_nat (k - 1)) ds ++ "e" ++ ex
          end in
        if neg then "-" ++ body else body
  end.

End Num.

(* ================================================================== *)
(** * Values, completions and property access *)
(* ================================================================== *)

Module Js.

Import Num.

(** A parsed JSON document.  An object lists its own properties in
    enumeration order. *)
Inductive JsVal : Type :=
| JNull
| JBool (b : bool)
| JNum (x : number)
| JStr (s : string)
| JArr (items : list JsVal)
| JObj (props : list (string * JsVal)).

Inductive error : Type :=
| TypeError
| RangeError
| StorageError.

(** The outcome of evaluating a piece of code that may throw. *)
Inductive completion (A : Type) : Type :=
| Normal (a : A)
| Throw (e : error).

Arguments Normal {A} a.
Arguments Throw {A} e.

Definition bind {A B} (c : completion A) (k : A -> completion B)
  : completion B :=
  match c with
  | Normal a => k a
  | Throw e => Throw e
  end.

Declare Scope js_scope.
Delimit Scope js_scope with js.
Notation "x <- c ;; k" := (bind c (fun x => k))
  (at level 61, c at next level, right associativity) : js_scope.
Notation "' p <- c ;; k" := (bind c (fun x => let 'p := x in k))
  (at level 61, p pattern, c at next level, right associativity) : js_scope.
Local Open Scope js_scope.

(** ToBoolean; [None] is [undefined]. *)
Definition truthy (v : option JsVal) : bool :=
  match v with
  | None | Some JNull => false
  | Some (JBool b) => b
  | Some (JNum x) => Num.truthy x
  | Some (JStr s) => negb (String.eqb s "")
  | Some (JArr _) | Some (JObj _) => true
  end.

(** [a || b] *)
Definition or_else (a : option JsVal) (b : JsVal) : JsVal :=
  match a with
  | Some v => if truthy a then v else b
  | None => b
  end.

Fixpoint lookup (key : string) (props : list (string * JsVal))
  : option JsVal :=
  match props with
  | [] => None
  | (k, v) :: rest => if String.eqb k key then Some v else lookup key rest
  end.

(** A property name that is an array index: decimal digits without a
    superfluous leading zero. *)
Definition array_index (key : string) : option nat :=
  match key with
  | EmptyString => None
  | String c r =>
      let '(ds, rest) := Str.span Str.is_digit key in
      match rest with
      | EmptyString =>
          if Ascii.eqb c "0" && negb (String.eqb r "") then None
          else Some (Z.to_nat (digits_value 0 ds))
      | _ => None
      end
  end.

(** [v.key] and [v[key]], for the property names the program reads
    ([embeds], [length], [0], [fields], [title], [name], [value],
    [content], [channel_id]): none of them is defined by a prototype, so an
    object answers with its own property, an array or a string with its
    length or its element, and a number or a boolean with [undefined].
    Reading a property of [null] or [undefined] throws. *)
Definition get (v : option JsVal) (key : string)
  : completion (option JsVal) :=
  match v with
  | None | Some JNull => Throw TypeError
  | Some (JObj props) => Normal (lookup key props)
  | Some (JArr items) =>
      if String.eqb key "length"
      then Normal (Some (JNum (of_Z (Z.of_nat (List.length items)))))
      else match array_index key with
           | Some i => Normal (nth_error items i)
           | None => Normal None
           end
  | Some (JStr s) =>
      if String.eqb key "length"
      then Normal (Some (JNum (of_Z (Z.of_nat (String.length s)))))
      else match array_index key with
           | Some i =>
               Normal (match String.get i s with
                       | Some c => Some (JStr (String c EmptyString))
                       | None => None
                       end)
           | None => Normal None
           end
  | Some (JBool _) | Some (JNum _) => Normal None
  end.

(** [v?.key] *)
Definition get_opt (v : option JsVal) (key : string)
  : completion (option JsVal) :=
  match v with
  | None | Some JNull => Normal None
  | _ => get v key
  end.

Definition has_own (key : string) (props : list (string * JsVal)) : bool :=
  match lookup key props with Some _ => true | None => false end.

Fixpoint join (sep : string) (parts : list string) : string :=
  match parts with
  | [] => EmptyString
  | [p] => p
  | p :: rest => p ++ sep ++ join sep rest
  end.

(** Runs a list of completions, stopping at the first throw. *)
Fixpoint sequence {A} (cs : list (completion A)) : completion (list A) :=
  match cs with
  | [] => Normal []
  | c :: rest => a <- c ;; r <- sequence rest ;; Normal (a :: r)
  end.

(** [v.toString()] for a value other than [null], and ToString(v) for an
    element of an array being joined (where [null] gives the empty
    string).  An object without an own [toString] answers through
    [Object.prototype]; an own [toString] is data, not a function, and
    calling it throws. *)
Fixpoint to_string (v : JsVal) : completion string :=
  match v with
  | JNull => Normal ""
  | JBool true => Normal "true"
  | JBool false => Normal "false"
  | JNum x => Normal (Num.toString x)
  | JStr s => Normal s
  | JArr items =>
      parts <- sequence (List.map to_string items) ;; Normal (join "," parts)
  | JObj props =>
      if has_own "toString" props then Throw TypeError
      else Normal "[object Object]"
  end.

(** [v.toLowerCase()] and [v.match(re)] exist on strings only. *)
Definition as_string_receiver (v : JsVal) : completion string :=
  match v with
  | JStr s => Normal s
  | _ => Throw TypeError
  end.

(** ** JSON.stringify *)

Definition hex_digit (z : Z) : ascii :=
  if z <? 10 then Str.chr (48 + z) else Str.chr (87 + z).

(** QuoteJSONString on one code unit. *)
Definition quote_char (c : ascii) : string :=
  let z := Str.code c in
  if z =? 8 then "\b"
  else if z =? 9 then "\t"
  else if z =? 10 then "\n"
  else if z =? 12 then "\f"
  else if z =? 13 then "\r"
  else if z =? 34 then String "\" (String c EmptyString)
  else if z =? 92 then "\\"
  else if z <? 32 then
    "\u00" ++ String (hex_digit (z / 16)) (String (hex_digit (z mod 16)) "")
  else String c EmptyString.

Fixpoint quote_body (s : string) : string :=
  match s with
  | EmptyString => EmptyString
  | String c r => quote_char c ++ quote_body r
  end.

Definition dquote : string := String (Str.chr 34) EmptyString.

Definition quote (s : string) : string := dquote ++ quote_body s ++ dquote.

(** [JSON.stringify(v)] without indentation. *)
Fixpoint stringify (v : JsVal) : string :=
  match v with
  | JNull => "null"
  | JBool true => "true"
  | JBool false => "false"
  | JNum (Fin q) => Num.toString (Fin q)
  | JNum _ => "null"
  | JStr s => quote s
  | JArr items => "[" ++ join "," (List.map stringify items) ++ "]"
  | JObj props =>
      "{" ++ join ","
               (List.map (fun kv => quote (fst kv) ++ ":" ++ stringify (snd kv))
                         props)
          ++ "}"
  end.

End Js.

(* ================================================================== *)
(** * The regular expressions of [index.js] *)
(* ================================================================== *)

Module Re.

(** A numeric token at the head of [s]: a maximal run of digits, then a
    dot and a maximal run of digits when a digit follows the dot.  Returns
    the token and the text after it. *)
Definition number_at (s : string) : option (string * string) :=
  let '(ip, r) := Str.span Str.is_digit s in
  match ip with
  | EmptyString => None
  | _ =>
      match r with
      | String "." t =>
          let '(fp, r') := Str.span Str.is_digit t in
          match fp with
          | EmptyString => Some (ip, r)
          | _ => Some (ip ++ "." ++ fp, r')
          end
      | _ => Some (ip, r)
      end
  end.

(** [s.match(/([0-9]+(?:\.[0-9]+)?)/)]: group 1 of the leftmost match.  The
    match starts at the first digit of [s] and both runs are greedy. *)
Fixpoint first_number (s : string) : option string :=
  match number_at s with
  | Some (tok, _) => Some tok
  | None =>
      match s with
      | EmptyString => None
      | String _ r => first_number r
      end
  end.

(** A match of [/([0-9]+(\.[0-9]+)?)\s*kg/i] starting at the head of [s].
    Giving back a digit, or the fraction, leaves a digit or a dot where
    white space or [k] is required, so only the greedy token can match. *)
Definition kg_at (s : string) : option string :=
  match number_at s with
  | Some (tok, r) =>
      match Str.ci_strip_prefix "kg" (Str.dropWhile Str.is_space r) with
      | Some _ => Some tok
      | None => None
      end
  | None => None
  end.

(** [s.match(/([0-9]+(\.[0-9]+)?)\s*kg/i)]: group 1 of the leftmost match. *)
Fixpoint kg_match (s : string) : option string :=
  match kg_at s with
  | Some tok => Some tok
  | None =>
      match s with
      | EmptyString => None
      | String _ r => kg_match r
      end
  end.

(** The last character of a run of white space that is not a line
    terminator, as a one-character string. *)
Fixpoint last_blank (ws : string) : option string :=
  match ws with
  | EmptyString => None
  | String c r =>
      match last_blank r with
      | Some b => Some b
      | None => if Str.is_line_terminator c then None
                else Some (String c EmptyString)
      end
  end.

(** Group 1 of [\s*(.+)] at the head of [s]: the white space is skipped
    and the rest of the line captured.  When only white space is left the
    matcher gives white space back until the dot can match: the capture
    is then the last white-space character that is not a line terminator. *)
Definition rest_of_line (s : string) : option string :=
  let '(ws, r) := Str.span Str.is_space s in
  match r with
  | EmptyString => last_blank ws
  | _ => Some (fst (Str.span (fun c => negb (Str.is_line_terminator c)) r))
  end.

(** A match of [/Hatched From\s*[:\-]\s*(.+)/i] starting at the head
    of [s]. *)
Definition hatched_from_at (s : string) : option string :=
  match Str.ci_strip_prefix "Hatched From" s with
  | Some r =>
      match Str.dropWhile Str.is_space r with
      | String c t =>
          if Ascii.eqb c ":" || Ascii.eqb c "-" then rest_of_line t
          else None
      | EmptyString => None
      end
  | None => None
  end.

(** [s.match(/Hatched From\s*[:\-]\s*(.+)/i)]: group 1 of the leftmost
    match. *)
Fixpoint hatched_from (s : string) : option string :=
  match hatched_from_at s with
  | Some cap => Some cap
  | None =>
      match s with
      | EmptyString => None
      | String _ r => hatched_from r
      end
  end.

(** A match of [/UTC([+-]\d{1,2})/i] starting at the head of [s]: the sign
    and one or two digits. *)
Definition utc_at (s : string) : option string :=
  match Str.ci_strip_prefix "UTC" s with
  | Some (String sg (String d1 r)) =>
      if (Ascii.eqb sg "+" || Ascii.eqb sg "-") && Str.is_digit d1 then
        match r with
        | String d2 _ =>
            if Str.is_digit d2
            then Some (String sg (String d1 (String d2 EmptyString)))
            else Some (String sg (String d1 EmptyString))
        | EmptyString => Some (String sg (String d1 EmptyString))
        end
      else None
  | _ => None
  end.

(** [tz.match(/UTC([+-]\d{1,2})/i)]: group 1 of the leftmost match. *)
Fixpoint utc_offset (s : string) : option string :=
  match utc_at s with
  | Some g => Some g
  | None =>
      match s with
      | EmptyString => None
      | String _ r => utc_offset r
      end
  end.

End Re.

Import Num Js.
Local Open Scope js_scope.

(* ================================================================== *)
(** * [classifyRarity] *)
(* ================================================================== *)

Inductive tier : Type :=
| semi_huge
| huge
| semi_titan
| titan
| godly.

(** The value of an integer literal such as [4.0]. *)
Definition lit (z : Z) : number := of_Z z.

(** [classifyRarity(kg)]; [None] is the [null] it returns outside the
    bands. *)
Definition classifyRarity (kg : number) : option tier :=
  if geb kg (lit 4) && ltb kg (lit 5) then Some semi_huge
  else if geb kg (lit 5) && ltb kg (lit 7) then Some huge
  else if geb kg (lit 7) && ltb kg (lit 8) then Some semi_titan
  else if geb kg (lit 8) && ltb kg (lit 9) then Some titan
  else if geb kg (lit 9) && leb kg (lit 15) then Some godly
  else None.

(* ================================================================== *)
(** * [parseWebhookPayload] *)
(* ================================================================== *)

(** The two variables of [parseWebhookPayload]: [eggName], [None] while it
    is [null], and [weight]. *)
Record parsed : Type := mkParsed {
  eggName : option JsVal;
  weight : number
}.

(** Line 304: [(f.name || "").toLowerCase()]. *)
Definition field_label (f : JsVal) : completion string :=
  n <- get (Some f) "name" ;;
  name <- as_string_receiver (or_else n (JStr "")) ;;
  Normal (Str.toLowerCase name).

(** Line 305: [(f.value || "").toString()]. *)
Definition field_value (f : JsVal) : completion string :=
  v <- get (Some f) "value" ;;
  to_string (or_else v (JStr "")).

(** Lines 307-314 on the label and the value of a field. *)
Definition field_update (st : parsed) (name val : string) : parsed :=
  let eggName' :=
    if Str.includes "from" name
    then Some (JStr (Str.trim (Str.strip_egg val)))
    else eggName st in
  let weight' :=
    if Str.includes "weight" name then
      match Re.first_number val with
      | Some m1 => parseFloat m1
      | None => weight st
      end
    else weight st in
  mkParsed eggName' weight'.

(** One round of the loop over [e.fields], lines 304-314. *)
Definition field_step (st : parsed) (f : JsVal) : completion parsed :=
  name <- field_label f ;;
  val <- field_value f ;;
  Normal (field_update st name val).

(** The loop [for (const f of e.fields)]. *)
Fixpoint fields_loop (fs : list JsVal) (st : parsed) : completion parsed :=
  match fs with
  | [] => Normal st
  | f :: rest => st' <- field_step st f ;; fields_loop rest st'
  end.

(** Lines 299-300: [body.embeds[0]] when [body.embeds?.length] is truthy;
    the element itself may be [undefined]. *)
Definition first_embed (body : JsVal) : completion (option (option JsVal)) :=
  embeds <- get (Some body) "embeds" ;;
  len <- get_opt embeds "length" ;;
  if truthy len then e <- get embeds "0" ;; Normal (Some e)
  else Normal None.

(** Lines 302-318 on the first embed [e]. *)
Definition embed_fields (e : option JsVal) (st : parsed) : completion parsed :=
  fields <- get e "fields" ;;
  st1 <- match fields with
         | Some (JArr fs) => fields_loop fs st
         | _ => Normal st
         end ;;
  if negb (truthy (eggName st1)) then
    title <- get e "title" ;;
    if truthy title then Normal (mkParsed title (weight st1))
    else Normal st1
  else Normal st1.

(** Lines 299-319: the first embed. *)
Definition embed_part (body : JsVal) (st : parsed) : completion parsed :=
  fe <- first_embed body ;;
  match fe with
  | Some e => embed_fields e st
  | None => Normal st
  end.

(** Lines 321-324: the free-text content. *)
Definition content_part (body : JsVal) (st : parsed) : completion parsed :=
  if negb (truthy (eggName st)) then
    content <- get (Some body) "content" ;;
    match content with
    | Some c =>
        if truthy content then
          text <- as_string_receiver c ;;
          match Re.hatched_from text with
          | Some m1 =>
              Normal (mkParsed (Some (JStr (Str.trim (Str.strip_egg m1))))
                               (weight st))
          | None => Normal st
          end
        else Normal st
    | None => Normal st
    end
  else Normal st.

(** Lines 326-327: the weight searched in the serialized payload. *)
Definition weightMatch (body : JsVal) : option string :=
  Re.kg_match (stringify body).

Definition kg_part (body : JsVal) (st : parsed) : parsed :=
  match weightMatch body with
  | Some m1 =>
      if negb (Num.truthy (weight st))
      then mkParsed (eggName st) (parseFloat m1)
      else st
  | None => st
  end.

(** Lines 329-330: the result [{ eggName, weight }]. *)
Definition finish (st : parsed) : JsVal * number :=
  (or_else (eggName st) (JStr "Unknown"), weight st).

Definition parseWebhookPayload (body : JsVal) : completion (JsVal * number) :=
  st1 <- embed_part body (mkParsed None zero) ;;
  st2 <- content_part body st1 ;;
  Normal (finish (kg_part body st2)).

(* ================================================================== *)
(** * Dates *)
(* ================================================================== *)

(** Time values are integral milliseconds since the epoch; every integer a
    Date can hold is below 2^53, so the arithmetic on them is exact and is
    done in [Z].  A time value of type [option Z] is NaN (an invalid Date)
    when it is [None]. *)
Module JsDate.

Definition msPerDay : Z := 86400000.
Definition msPerHour : Z := 3600000.
Definition msPerMinute : Z := 60000.
Definition msPerSecond : Z := 1000.
Definition maxTime : Z := 8640000000000000.

Definition Day (t : Z) : Z := t / msPerDay.
Definition TimeWithinDay (t : Z) : Z := t mod msPerDay.

Definition DayFromYear (y : Z) : Z :=
  365 * (y - 1970) + (y - 1969) / 4 - (y - 1901) / 100 + (y - 1601) / 400.

(** The largest year whose first day is not after day [d].  The estimate
    from the mean length of a year is off by at most one. *)
Definition YearFromDay (d : Z) : Z :=
  let y := 1970 + d * 400 / 146097 in
  if d <? DayFromYear y then y - 1
  else if DayFromYear (y + 1) <=? d then y + 1
  else y.

Definition YearFromTime (t : Z) : Z := YearFromDay (Day t).

Definition DaysInYear (y : Z) : Z :=
  if negb (y mod 4 =? 0) then 365
  else if negb (y mod 100 =? 0) then 366
  else if negb (y mod 400 =? 0) then 365
  else 366.

(** 1 in a leap year, 0 otherwise. *)
Definition LeapYear (y : Z) : Z := DaysInYear y - 365.

Definition InLeapYear (t : Z) : Z := LeapYear (YearFromTime t).

Definition DayWithinYear (t : Z) : Z := Day t - DayFromYear (YearFromTime t).

(** The day within the year on which month [m] (0 to 11) starts; 12 gives
    the length of the year. *)
Definition month_start (leap m : Z) : Z :=
  match m with
  | 0 => 0
  | 1 => 31
  | 2 => 59 + leap
  | 3 => 90 + leap
  | 4 => 120 + leap
  | 5 => 151 + leap
  | 6 => 181 + leap
  | 7 => 212 + leap
  | 8 => 243 + leap
  | 9 => 273 + leap
  | 10 => 304 + leap
  | 11 => 334 + leap
  | _ => 365 + leap
  end.

Definition month_of (leap dwy : Z) : Z :=
  if dwy <? month_start leap 1 then 0
  else if dwy <? month_start leap 2 then 1
  else if dwy <? month_start leap 3 then 2
  else if dwy <? month_start leap 4 then 3
  else if dwy <? month_start leap 5 then 4
  else if dwy <? month_start leap 6 then 5
  else if dwy <? month_start leap 7 then 6
  else if dwy <? month_start leap 8 then 7
  else if dwy <? month_start leap 9 then 8
  else if dwy <? month_start leap 10 then 9
  else if dwy <? month_start leap 11 then 10
  else 11.

Definition MonthFromTime (t : Z) : Z := month_of (InLeapYear t) (DayWithinYear t).

Definition DateFromTime (t : Z) : Z :=
  DayWithinYear t - month_start (InLeapYear t) (MonthFromTime t) + 1.

Definition HourFromTime (t : Z) : Z := (t / msPerHour) mod 24.
Definition MinFromTime (t : Z) : Z := (t / msPerMinute) mod 60.
Definition SecFromTime (t : Z) : Z := (t / msPerSecond) mod 60.
Definition msFromTime (t : Z) : Z := t mod msPerSecond.

Definition MakeTime (hour min sec ms : Z) : Z :=
  hour * msPerHour + min * msPerMinute + sec * msPerSecond + ms.

(** The day number of the first of month [month] of [year], plus
    [date - 1]; months outside 0..11 carry into the year. *)
Definition MakeDay (year month date : Z) : Z :=
  let ym := year + month / 12 in
  let mn := month mod 12 in
  DayFromYear ym + month_start (LeapYear ym) mn + date - 1.

Definition MakeDate (day time : Z) : Z := day * msPerDay + time.

Definition TimeClip (t : Z) : option Z :=
  if Z.abs t <=? maxTime then Some t else None.

(** [Date.UTC(year, month, date)]: a year from 0 to 99 stands for
    1900 + year. *)
Definition UTC3 (year month date : Z) : option Z :=
  let yr := if (0 <=? year) && (year <=? 99) then 1900 + year else year in
  TimeClip (MakeDate (MakeDay yr month date) (MakeTime 0 0 0 0)).

Definition getUTCFullYear (t : Z) : Z := YearFromTime t.
Definition getUTCMonth (t : Z) : Z := MonthFromTime t.
Definition getUTCDate (t : Z) : Z := DateFromTime t.
Definition getUTCHours (t : Z) : Z := HourFromTime t.

(** [d.setUTCHours(hour)] on a Date holding [t]; [hour] is [None] when the
    argument is NaN. *)
Definition setUTCHours (t : option Z) (hour : option Z) : option Z :=
  match t, hour with
  | Some t, Some h =>
      TimeClip (MakeDate (Day t)
                  (MakeTime h (MinFromTime t) (SecFromTime t) (msFromTime t)))
  | _, _ => None
  end.

Section LocalZone.

(** The offset of the zone the process runs in: [LocalTZA t true] is the
    offset in force at the UTC time [t], [LocalTZA t false] the offset in
    force at the local time [t]. *)
Variable LocalTZA : Z -> bool -> Z.

Definition LocalTime (t : Z) : Z := t + LocalTZA t true.
Definition UTC (t : Z) : Z := t - LocalTZA t false.

Definition getDate (t : Z) : Z := DateFromTime (LocalTime t).
Definition getHours (t : Z) : Z := HourFromTime (LocalTime t).

(** [d.setDate(date)] *)
Definition setDate (t : option Z) (date : option Z) : option Z :=
  match t, date with
  | Some t, Some dt =>
      let t := LocalTime t in
      TimeClip (UTC (MakeDate (MakeDay (YearFromTime t) (MonthFromTime t) dt)
                              (TimeWithinDay t)))
  | _, _ => None
  end.

(** [d.setHours(hour)] *)
Definition setHours (t : option Z) (hour : option Z) : option Z :=
  match t, hour with
  | Some t, Some h =>
      let t := LocalTime t in
      TimeClip (UTC (MakeDate (Day t)
                       (MakeTime h (MinFromTime t) (SecFromTime t)
                                 (msFromTime t))))
  | _, _ => None
  end.

End LocalZone.

(** ** [toISOString] *)

(** [z] in decimal, padded with zeros to [width] digits. *)
Definition pad (width : nat) (z : Z) : string :=
  let ds := Z_to_string z in
  zeros (width - String.length ds) ++ ds.

Definition year_string (y : Z) : string :=
  if (0 <=? y) && (y <=? 9999) then pad 4 y
  else (if 0 <=? y then "+" else "-") ++ pad 6 (Z.abs y).

(** [d.toISOString()]; throws a RangeError on an invalid Date. *)
Definition toISOString (t : option Z) : completion string :=
  match t with
  | None => Throw RangeError
  | Some t =>
      Normal (year_string (YearFromTime t) ++ "-" ++
              pad 2 (MonthFromTime t + 1) ++ "-" ++
              pad 2 (DateFromTime t) ++ "T" ++
              pad 2 (HourFromTime t) ++ ":" ++
              pad 2 (MinFromTime t) ++ ":" ++
              pad 2 (SecFromTime t) ++ "." ++
              pad 3 (msFromTime t) ++ "Z")
  end.

End JsDate.

(* ================================================================== *)
(** * The store *)
(* ================================================================== *)

(** A row of [settings]; [guild_id] is the primary key, the other columns
    may hold NULL.  A row holds what the statement that wrote it was given
    and what a SELECT returns of it; [loss_multiplier] is a REAL column,
    which keeps a multiplier in single precision only (see [stored_real]),
    so no theorem below reads back the multiplier of a row that
    [saveSettings] wrote. *)
Record settings_row : Type := mkSettingsRow {
  s_guild_id : string;
  s_webhook_channel_id : option string;
  s_timezone_offset : option string;
  s_loss_multiplier : option number
}.

(** A row of [hatch_logs]: the four values [insertLog] hands to the INSERT
    statement (the store adds [id] and [hatched_at]).  [weight] is a REAL
    column: what it keeps of [h_weight] is [stored_weight], the
    single-precision value nearest to it. *)
Record hatch_log : Type := mkHatchLog {
  h_guild_id : string;
  h_egg_name : JsVal;
  h_weight : number;
  h_rarity : option tier
}.

(** The two tables, rows in the order the store returns them, and the
    faults of the connection: the n-th query issued fails when the n-th
    flag is [true] (no flag left: the query succeeds). *)
Record store : Type := mkStore {
  settings : list settings_row;
  hatch_logs : list hatch_log;
  faults : list bool
}.

(** What [ensureTables] leaves on a fresh database. *)
Definition empty_store (fs : list bool) : store := mkStore [] [] fs.

(** Code that awaits queries: it runs against the store and may throw. *)
Definition M (A : Type) : Type := store -> completion A * store.

Definition ret {A} (a : A) : M A := fun st => (Normal a, st).

Definition mbind {A B} (m : M A) (k : A -> M B) : M B :=
  fun st =>
    match m st with
    | (Normal a, st') => k a st'
    | (Throw e, st') => (Throw e, st')
    end.

(** A completion computed without the store. *)
Definition lift {A} (c : completion A) : M A := fun st => (c, st).

Declare Scope store_scope.
Delimit Scope store_scope with store.
Notation "x <~ c ;; k" := (mbind c (fun x => k))
  (at level 61, c at next level, right associativity) : store_scope.
Notation "' p <~ c ;; k" := (mbind c (fun x => let 'p := x in k))
  (at level 61, p pattern, c at next level, right associativity) : store_scope.
Local Open Scope store_scope.

(** [await pool.query(...)]: the next fault flag decides whether the query
    reaches the tables; [run] is the query itself. *)
Definition query {A} (run : store -> A * store) : M A :=
  fun st =>
    match faults st with
    | true :: fs =>
        (Throw StorageError, mkStore (settings st) (hatch_logs st) fs)
    | fs =>
        let '(a, st') := run st in
        (Normal a, mkStore (settings st') (hatch_logs st') (List.tl fs))
    end.

(** [col = $1] on a TEXT column: never true on NULL. *)
Definition sql_text_eq (col param : option string) : bool :=
  match col, param with
  | Some a, Some b => String.eqb a b
  | _, _ => false
  end.

(** ToBoolean of a value that is a string or [null]. *)
Definition nonempty (s : option string) : bool :=
  match s with
  | Some s => negb (String.eqb s "")
  | None => false
  end.

(** INSERT ... ON CONFLICT (guild_id) DO UPDATE.  The updated row is left
    at the place of the old one; the store does not fix where a later
    SELECT without ORDER BY finds it, and no theorem below depends on the
    place of a row after an update. *)
Fixpoint upsert (r : settings_row) (rows : list settings_row)
  : list settings_row :=
  match rows with
  | [] => [r]
  | x :: rest =>
      if String.eqb (s_guild_id x) (s_guild_id r) then r :: rest
      else x :: upsert r rest
  end.

Section Tracker.

(** The configuration read from the environment at start-up. *)
Variable WEBHOOK_CHANNEL_ID : option string.
Variable DEFAULT_TZ : string.
Variable DEFAULT_LOSS : number.

(** The zone of the host, see [JsDate.LocalTZA]. *)
Variable LocalTZA : Z -> bool -> Z.

(** The text the database driver sends for a query parameter that is a
    JavaScript value other than [null]. *)
Variable prepareValue : JsVal -> string.

(** ** [getSettings], [saveSettings], [insertLog] *)

(** The object [getSettings] resolves to. *)
Record guild_settings : Type := mkGuildSettings {
  webhook_channel_id : option string;
  timezone_offset : string;
  loss_multiplier : number
}.

Definition getSettings (guildId : string) : M guild_settings :=
  rows <~ query (fun st =>
            (List.filter (fun r => String.eqb (s_guild_id r) guildId)
                         (settings st), st)) ;;
  match rows with
  | [] => ret (mkGuildSettings WEBHOOK_CHANNEL_ID DEFAULT_TZ DEFAULT_LOSS)
  | r :: _ =>
      ret (mkGuildSettings
             (if nonempty (s_webhook_channel_id r)
              then s_webhook_channel_id r else WEBHOOK_CHANNEL_ID)
             (match s_timezone_offset r with
              | Some tz => if nonempty (Some tz) then tz else DEFAULT_TZ
              | None => DEFAULT_TZ
              end)
             (parseFloat
                (Num.toString
                   (match s_loss_multiplier r with
                    | Some l => if Num.truthy l then l else DEFAULT_LOSS
                    | None => DEFAULT_LOSS
                    end))))
  end.

(** The row is made of the values handed to the statement.  A value the
    store rejects for its column (a multiplier out of the range of REAL)
    makes the query fail: it is one of the faults. *)
Definition saveSettings (guildId channelId timezone : string)
    (lossMultiplier : number) : M unit :=
  query (fun st =>
    (tt, mkStore
           (upsert (mkSettingsRow guildId (Some channelId) (Some timezone)
                                  (Some lossMultiplier))
                   (settings st))
           (hatch_logs st) (faults st))).

(** The row is made of the values handed to the statement; what the
    column [weight] keeps of the weight is [stored_weight].  A weight out
    of the range of REAL makes the query fail: it is one of the faults. *)
Definition insertLog (guildId : string) (eggName : JsVal) (weight : number)
    (rarity : option tier) : M unit :=
  query (fun st =>
    (tt, mkStore (settings st)
                 (hatch_logs st ++ [mkHatchLog guildId eggName weight rarity])
                 (faults st))).

(** ** The webhook route *)

(** Lines 335-358, the body of the [try]. *)
Definition webhook_try (payload : JsVal) : M unit :=
  '(eggName, weight) <~ lift (parseWebhookPayload payload) ;;
  let rarity := classifyRarity weight in
  cid <~ lift (get_opt (Some payload) "channel_id") ;;
  let channelId :=
    match cid with
    | Some c => if truthy cid then Some (prepareValue c) else WEBHOOK_CHANNEL_ID
    | None => WEBHOOK_CHANNEL_ID
    end in
  sres <~ query (fun st =>
            (List.filter
               (fun r => sql_text_eq (s_webhook_channel_id r) channelId)
               (settings st), st)) ;;
  let guildId :=
    match sres with
    | r :: _ => Some (s_guild_id r)
    | [] => None
    end in
  guildId <~ (if negb (nonempty guildId) then
                fallback <~ query (fun st => (List.firstn 1 (settings st), st)) ;;
                match fallback with
                | r :: _ => ret (Some (s_guild_id r))
                | [] => ret guildId
                end
              else ret guildId) ;;
  match guildId with
  | Some g =>
      if negb (nonempty guildId) then insertLog "unknown" eggName weight rarity
      else insertLog g eggName weight rarity
  | None => insertLog "unknown" eggName weight rarity
  end.

(** [app.post('/webhook', ...)]: the status sent, 200 at the end of the
    [try] and 500 from the [catch]. *)
Definition webhook (payload : JsVal) (st : store) : Z * store :=
  match webhook_try payload st with
  | (Normal _, st') => (200, st')
  | (Throw _, st') => (500, st')
  end.

(** ** The period of [/dailycount] and [/egg] *)

(** Lines 216-218: the hours of a zone such as [UTC+8]; [None] is NaN. *)
Definition offsetHours (tz : string) : option Z :=
  match Re.utc_offset tz with
  | Some m1 => parseInt m1 (Some 10)
  | None => Some 0
  end.

(** Lines 221-222 and 253-254. *)
Definition localMidnight (offset : option Z) (now : Z) : option Z :=
  let lm := JsDate.UTC3 (JsDate.getUTCFullYear now) (JsDate.getUTCMonth now)
                        (JsDate.getUTCDate now) in
  JsDate.setUTCHours lm
    (match lm, offset with
     | Some t, Some h => Some (JsDate.getUTCHours t - h)
     | _, _ => None
     end).

(** Lines 214-223 of [/dailycount]: [sinceTs], with [now] the clock. *)
Definition dailycount_sinceTs (guildId : string) (now : Z) : M string :=
  s <~ getSettings guildId ;;
  lift (JsDate.toISOString (localMidnight (offsetHours (timezone_offset s)) now)).

(** Lines 244-262 of [/egg]: the Date [since]; [now] and [since0] are the
    two readings of the clock. *)
Definition egg_since (guildId period : string) (now since0 : Z)
  : M (option Z) :=
  if String.eqb period "today" then
    s <~ getSettings guildId ;;
    ret (localMidnight (offsetHours (timezone_offset s)) now)
  else if Str.endsWithChar "d" period then
    ret (JsDate.setDate LocalTZA (Some since0)
           (match parseInt period None with
            | Some n => Some (JsDate.getDate LocalTZA now - n)
            | None => None
            end))
  else if String.eqb period "24h" then
    ret (JsDate.setHours LocalTZA (Some since0)
           (Some (JsDate.getHours LocalTZA now - 24)))
  else
    ret (JsDate.setHours LocalTZA (Some since0)
           (Some (JsDate.getHours LocalTZA now - 24))).

(** Line 264: [sinceTs]. *)
Definition egg_sinceTs (guildId period : string) (now since0 : Z)
  : M string :=
  since <~ egg_since guildId period now since0 ;;
  lift (JsDate.toISOString since).

End Tracker.

(* ================================================================== *)
(** * Notions used in the statements *)
(* ================================================================== *)

(** The label and the value of a field, as the loop reads them. *)
Definition read_field (f : JsVal) : completion (string * string) :=
  name <- field_label f ;;
  val <- field_value f ;;
  Normal (name, val).

(** The fields of a list as (label, value) pairs, when each can be read. *)
Definition fields_view (fs : list JsVal) : completion (list (string * string)) :=
  sequence (List.map read_field fs).

(** The field list of the first embed, empty when the payload has no embed
    or the embed has no list. *)
Definition block_fields (body : JsVal) : completion (list JsVal) :=
  fe <- first_embed body ;;
  match fe with
  | Some e =>
      fields <- get e "fields" ;;
      match fields with
      | Some (JArr fs) => Normal fs
      | _ => Normal []
      end
  | None => Normal []
  end.

(** The value of the last pair, in document order, whose label contains
    [needle]. *)
Fixpoint last_match (needle : string) (lvs : list (string * string))
  : option string :=
  match lvs with
  | [] => None
  | (l, v) :: rest =>
      match last_match needle rest with
      | Some x => Some x
      | None => if Str.includes needle l then Some v else None
      end
  end.

(** The weight read by the first strategy: the first numeric token of the
    last weight-labelled field that has one. *)
Fixpoint last_weight (lvs : list (string * string)) : option number :=
  match lvs with
  | [] => None
  | (l, v) :: rest =>
      match last_weight rest with
      | Some w => Some w
      | None =>
          if Str.includes "weight" l
          then option_map parseFloat (Re.first_number v)
          else None
      end
  end.

(** A field [{ name, value }] of strings. *)
Definition plain_field (name value : string) : JsVal :=
  JObj [("name", JStr name); ("value", JStr value)].

(** A payload with one embed made of a title and fields, and no content. *)
Definition embed_payload (title : string) (fs : list JsVal) : JsVal :=
  JObj [("embeds", JArr [JObj [("title", JStr title); ("fields", JArr fs)]])].

(** Text made only of white space and of occurrences of [egg] in any
    case. *)
Inductive egg_or_space : string -> Prop :=
| eos_empty : egg_or_space EmptyString
| eos_space c s :
    Str.is_space c = true -> egg_or_space s -> egg_or_space (String c s)
| eos_egg a b c s :
    Str.ci_eqb "e" a && Str.ci_eqb "g" b && Str.ci_eqb "g" c = true ->
    egg_or_space s -> egg_or_space (String a (String b (String c s))).

(** The known shapes of a payload: an object whose [embeds], when present,
    is a list of objects with an optional string [title] and an optional
    list [fields] of objects with optional strings [name] and [value], and
    whose [content], when present, is a string. *)
Definition absent_or_string (v : option JsVal) : bool :=
  match v with
  | None | Some (JStr _) => true
  | _ => false
  end.

Definition field_ok (f : JsVal) : bool :=
  match f with
  | JObj props =>
      absent_or_string (lookup "name" props) &&
      absent_or_string (lookup "value" props)
  | _ => false
  end.

Definition embed_ok (e : JsVal) : bool :=
  match e with
  | JObj props =>
      absent_or_string (lookup "title" props) &&
      match lookup "fields" props with
      | None => true
      | Some (JArr fs) => forallb field_ok fs
      | Some _ => false
      end
  | _ => false
  end.

Definition known_shape (body : JsVal) : bool :=
  match body with
  | JObj props =>
      match lookup "embeds" props with
      | None => true
      | Some (JArr es) => forallb embed_ok es
      | Some _ => false
      end &&
      absent_or_string (lookup "content" props)
  | _ => false
  end.

(** A row of the event log holds the name and the weight that
    [parseWebhookPayload] made of some payload, and agrees with the
    classifier on that weight. *)
Definition log_ok (r : hatch_log) : Prop :=
  h_rarity r = classifyRarity (h_weight r) /\
  exists payload,
    parseWebhookPayload payload = Normal (h_egg_name r, h_weight r).

(** The states of the store the program can reach from the tables
    [ensureTables] creates: by a webhook delivery, by the [saveSettings] of
    [/setup], and by any change of the connection's faults (the other
    commands only read). *)
Inductive reachable (chan : option string) (pv : JsVal -> string)
  : store -> Prop :=
| reach_init fs : reachable chan pv (empty_store fs)
| reach_webhook st payload :
    reachable chan pv st ->
    reachable chan pv (snd (webhook chan pv payload st))
| reach_setup st guildId channelId timezone loss :
    reachable chan pv st ->
    reachable chan pv (snd (saveSettings guildId channelId timezone loss st))
| reach_faults st fs :
    reachable chan pv st ->
    reachable chan pv (mkStore (settings st) (hatch_logs st) fs).

(** No query among the next [n] fails. *)
Definition no_fault (n : nat) (st : store) : Prop :=
  forall b, In b (List.firstn n (faults st)) -> b = false.

(** A time value a Date can hold. *)
Definition valid_time (t : Z) : Prop :=
  - JsDate.maxTime <= t <= JsDate.maxTime.

(** A host whose zone keeps one offset, such as UTC. *)
Definition fixed_zone (offset : Z) : Z -> bool -> Z := fun _ _ => offset.

(** A host whose offset is one hour east of UTC from time 0 on and UTC
    before: its clocks jump forward at the epoch. *)
Definition spring_forward : Z -> bool -> Z :=
  fun t isUTC =>
    if isUTC then (if 0 <=? t then JsDate.msPerHour else 0)
    else (if JsDate.msPerHour <=? t then JsDate.msPerHour else 0).

(** A driver that sends a string as it is. *)
Definition text_param (v : JsVal) : string :=
  match v with
  | JStr s => s
  | _ => stringify v
  end.

(** The loop seen on the (label, value) pairs. *)
Definition fold_fields (lvs : list (string * string)) (st : parsed) : parsed :=
  List.fold_left (fun acc lv => field_update acc (fst lv) (snd lv)) lvs st.

(** The name is still [null], or a string. *)
Definition name_ok (st : parsed) : Prop :=
  eggName st = None \/ exists s, eggName st = Some (JStr s).

(** The content, when there is one, is text (or falsy). *)
Definition content_ok (body : JsVal) : bool :=
  match get (Some body) "content" with
  | Normal (Some (JStr _)) => true
  | Normal (Some c) => negb (truthy (Some c))
  | Normal None => true
  | Throw _ => false
  end.

(** Running [m] keeps every row of the event log in agreement with the
    classifier. *)
Definition keeps_log {A} (m : M A) : Prop :=
  forall st, Forall log_ok (hatch_logs st) ->
             Forall log_ok (hatch_logs (snd (m st))).

(** The row stored for a guild. *)
Definition stored_row (guildId : string) (st : store) : option settings_row :=
  List.find (fun r => String.eqb (s_guild_id r) guildId) (settings st).

(** A token made of decimal digits followed by [d]. *)
Definition is_integer_d (s : string) : bool :=
  let '(ds, r) := Str.span Str.is_digit s in
  negb (String.eqb ds "") && String.eqb r "d".

(** ** Payloads and stores of the examples *)

Definition two_from_fields : JsVal :=
  embed_payload "New hatch"
    [plain_field "Hatched From" "Common Egg";
     plain_field "Hatched From" "Rare Egg"].

Definition egg_only_field : JsVal :=
  embed_payload "Golden" [plain_field "Hatched From" "Egg"].

Definition kg_in_content : JsVal :=
  JObj [("content", JStr "Hatched a big one: 7.25kg")].

Definition zero_weight_field : JsVal :=
  JObj [("embeds", JArr [JObj [("fields", JArr [plain_field "Weight" "0"])]]);
        ("content", JStr "5kg")].

Definition longer_number : JsVal :=
  JObj [("content", JStr "17.25kg")].

Definition blank_from_field : JsVal :=
  JObj [("embeds", JArr [JObj [("fields",
           JArr [plain_field "Hatched From" " Egg EGG "])]]);
        ("content", JStr "Hatched From: Legendary Egg")].

Definition title_only : JsVal :=
  JObj [("embeds", JArr [JObj [("title", JStr "Golden")]])].

Definition two_guilds : store :=
  mkStore [mkSettingsRow "g0" (Some "c0") (Some "UTC-5") (Some (of_Z 2));
           mkSettingsRow "g1" (Some "c1") None (Some (Fin (3 # 2)))] [] [].


(* ================================================================== *)
(** * Further notions *)
(* ================================================================== *)

(** A number that is neither NaN nor negative. *)
Definition nonneg_number (x : number) : Prop :=
  match x with
  | Fin q => (0 <= q)%Q
  | PosInf => True
  | NaN | NegInf => False
  end.

(** Every character of [s] satisfies [p]. *)
Fixpoint all_chars (p : ascii -> bool) (s : string) : bool :=
  match s with
  | EmptyString => true
  | String c r => p c && all_chars p r
  end.

(** The first embed has no usable title. *)
Definition no_title (body : JsVal) : Prop :=
  forall e, first_embed body = Normal (Some e) ->
            exists t, get e "title" = Normal t /\ truthy t = false.

Definition verbatim_title : JsVal :=
  embed_payload "Golden Egg " [plain_field "Weight" "4.5 kg"].

Definition content_only : JsVal :=
  JObj [("content", JStr "Hatched From: Legendary Egg")].

Definition null_embed : JsVal := JObj [("embeds", JArr [JNull])].

Definition numeric_label : JsVal :=
  JObj [("embeds", JArr [JObj [("fields",
          JArr [plain_field "Hatched From" "Rare Egg";
                JObj [("name", JNum (of_Z 7)); ("value", JStr "x")]])]])].


(** The name is still [null], or a trimmed string. *)
Definition name_trimmed (st : parsed) : Prop :=
  eggName st = None \/ exists n, eggName st = Some (JStr n) /\ Str.trim n = n.

(** The two tables of [st'] are those of [st]. *)
Definition same_tables (st st' : store) : Prop :=
  settings st' = settings st /\ hatch_logs st' = hatch_logs st.





(** Running [m] leaves the table [settings] as it is. *)
Definition keeps_settings {A} (m : M A) : Prop :=
  forall st, settings (snd (m st)) = settings st.

Definition resaved : store :=
  snd (saveSettings "g1" "c7" "UTC+2" (Fin (5 # 2)) two_guilds).


(* ================================================================== *)
(** * The counting queries *)
(* ================================================================== *)

(** A row of [hatch_logs] with the [hatched_at] the store gave it
    (DEFAULT now()), in microseconds since the epoch. *)
Record logged_row : Type := mkLoggedRow {
  l_row : hatch_log;
  l_hatched_at : Z
}.

(** [WHERE guild_id=$1 AND hatched_at >= $2]; [since] is the time value, in
    milliseconds, that the ISO text passed as [$2] denotes. *)
Definition in_window (guildId : string) (since : Z) (r : logged_row) : bool :=
  String.eqb (h_guild_id (l_row r)) guildId
  && (since * 1000 <=? l_hatched_at r).

(** COUNT arrives as the decimal text of a bigint. *)
Definition count_text (n : nat) : string := Z_to_string (Z.of_nat n).

(** [countSince], lines 105-111, on a query that reaches the table: the
    aggregate without GROUP BY has exactly one row. *)
Definition countSince (table : list logged_row) (guildId : string)
    (since : Z) : option Z :=
  parseInt
    (count_text (List.length (List.filter (in_window guildId since) table)))
    (Some 10).

Definition tier_eqb (a b : tier) : bool :=
  match a, b with
  | semi_huge, semi_huge | huge, huge | semi_titan, semi_titan
  | titan, titan | godly, godly => true
  | _, _ => false
  end.

Definition rarity_eqb (a b : option tier) : bool :=
  match a, b with
  | Some x, Some y => tier_eqb x y
  | None, None => true
  | _, _ => false
  end.

(** The rows of one group of GROUP BY rarity; the NULLs form a group. *)
Definition rarity_count (k : option tier) (rows : list logged_row) : nat :=
  List.length
    (List.filter (fun r => rarity_eqb (h_rarity (l_row r)) k) rows).

(** The groups met so far, in the order of first appearance. *)
Fixpoint add_group (k : option tier) (keys : list (option tier))
  : list (option tier) :=
  match keys with
  | [] => [k]
  | k' :: rest => if rarity_eqb k' k then keys else k' :: add_group k rest
  end.

Definition rarity_keys (rows : list logged_row) : list (option tier) :=
  List.fold_left (fun keys r => add_group (h_rarity (l_row r)) keys) rows [].

(** [SELECT rarity, COUNT( * ) as cnt ... GROUP BY rarity] on the selected
    rows: one row per group, here in the order of first appearance (the
    statement fixes no order). *)
Definition group_by_rarity (rows : list logged_row)
  : list (option tier * string) :=
  List.map (fun k => (k, count_text (rarity_count k rows)))
           (rarity_keys rows).

(** The object [map] of [countRaritySince]: its properties in order, named
    by the tiers; [None] is NaN. *)
Definition rarity_map : Type := list (tier * option Z).

(** [map[k] = v] *)
Fixpoint map_set (k : tier) (v : option Z) (map : rarity_map) : rarity_map :=
  match map with
  | [] => [(k, v)]
  | (k', v') :: rest =>
      if tier_eqb k' k then (k', v) :: rest else (k', v') :: map_set k v rest
  end.

(** [map.k] *)
Fixpoint map_get (k : tier) (map : rarity_map) : option (option Z) :=
  match map with
  | [] => None
  | (k', v) :: rest => if tier_eqb k' k then Some v else map_get k rest
  end.

(** Line 127. *)
Definition initial_map : rarity_map :=
  [(semi_huge, Some 0); (huge, Some 0); (semi_titan, Some 0);
   (titan, Some 0); (godly, Some 0)].

(** Line 129, the body of the loop; the rarity of a row is truthy unless it
    is NULL. *)
Definition rarity_step (map : rarity_map) (row : option tier * string)
  : rarity_map :=
  match fst row with
  | Some t => map_set t (parseInt (snd row) (Some 10)) map
  | None => map
  end.

(** Lines 127-131 on the rows of the result. *)
Definition rarity_loop (rows : list (option tier * string)) : rarity_map :=
  List.fold_left rarity_step rows initial_map.

(** [countRaritySince], lines 121-132, on a query that reaches the table. *)
Definition countRaritySince (table : list logged_row) (guildId : string)
    (since : Z) : rarity_map :=
  rarity_loop
    (group_by_rarity (List.filter (in_window guildId since) table)).

(** A table of four events: three in guild g1 (two huge, one without a
    tier) and one in guild g2. *)
Definition four_events : list logged_row :=
  [ mkLoggedRow (mkHatchLog "g1" (JStr "Rare") (of_Z 5) (Some huge))
                1705287600000000;
    mkLoggedRow (mkHatchLog "g1" (JStr "Common") (of_Z 1) None)
                1705287601000000;
    mkLoggedRow (mkHatchLog "g2" (JStr "Rare") (of_Z 9) (Some godly))
                1705287602000000;
    mkLoggedRow (mkHatchLog "g1" (JStr "Rare") (of_Z 6) (Some huge))
                1705287603000000 ].


(* ================================================================== *)
(** * [db.js] *)
(* ================================================================== *)

Module Db.

(** What [new Pool({ connectionString, ssl })] is made from. *)
Record Pool : Type := mkPool { connectionString : string }.

Inductive failure : Type :=
| UrlMissing   (** [new Error("DATABASE_URL missing")] *)
| NullPool     (** the TypeError of [pool.connect()] on [null] *)
| Rejected.    (** the store rejects the connection or a statement *)

Inductive outcome (A : Type) : Type :=
| Done (a : A)
| Failed (e : failure).

Arguments Done {A} a.
Arguments Failed {A} e.

(** [initDb()]: [pool] is the module variable, [None] while it is [null];
    [DATABASE_URL] is the environment variable when the call is made. *)
Definition initDb (DATABASE_URL : option string) (pool : option Pool)
  : outcome Pool * option Pool :=
  match pool with
  | Some p => (Done p, pool)
  | None =>
      match DATABASE_URL with
      | Some url =>
          if String.eqb url "" then (Failed UrlMissing, None)
          else (Done (mkPool url), Some (mkPool url))
      | None => (Failed UrlMissing, None)
      end
  end.

(** [getPool()] *)
Definition getPool (pool : option Pool) : option Pool := pool.

(** The database behind the pool: each table, [None] while it does not
    exist; the clients checked out of the pool; the faults to come, one
    flag for each connection or statement. *)
Record database : Type := mkDatabase {
  settings_table : option (list settings_row);
  hatch_logs_table : option (list hatch_log);
  clients_out : nat;
  db_faults : list bool
}.

Definition next_fault (db : database) : bool * database :=
  match db_faults db with
  | b :: fs =>
      (b, mkDatabase (settings_table db) (hatch_logs_table db)
                     (clients_out db) fs)
  | [] => (false, db)
  end.

(** CREATE TABLE IF NOT EXISTS *)
Definition create_if_absent {A} (t : option (list A)) : option (list A) :=
  match t with
  | Some rows => Some rows
  | None => Some []
  end.

(** [await pool.connect()] once the fault flag is read. *)
Definition checkout (db : database) : database :=
  mkDatabase (settings_table db) (hatch_logs_table db)
             (S (clients_out db)) (db_faults db).

(** [client.release()] *)
Definition release (db : database) : database :=
  mkDatabase (settings_table db) (hatch_logs_table db)
             (Nat.pred (clients_out db)) (db_faults db).

(** Lines 23-41, the [try] block. *)
Definition create_tables (db : database) : outcome unit * database :=
  let '(f1, db1) := next_fault db in
  if f1 then (Failed Rejected, db1)
  else
    let db2 := mkDatabase (create_if_absent (settings_table db1))
                          (hatch_logs_table db1)
                          (clients_out db1) (db_faults db1) in
    let '(f2, db3) := next_fault db2 in
    if f2 then (Failed Rejected, db3)
    else
      (Done tt,
       mkDatabase (settings_table db3)
                  (create_if_absent (hatch_logs_table db3))
                  (clients_out db3) (db_faults db3)).

(** [ensureTables()] *)
Definition ensureTables (pool : option Pool) (db : database)
  : outcome unit * database :=
  match pool with
  | None => (Failed NullPool, db)
  | Some _ =>
      let '(f0, db0) := next_fault db in
      if f0 then (Failed Rejected, db0)
      else
        let '(r, db1) := create_tables (checkout db0) in
        (r, release db1)
  end.

(** A database with no table yet. *)
Definition fresh (fs : list bool) : database := mkDatabase None None 0 fs.

End Db.

(* ================================================================== *)
(** * The REAL columns *)
(* ================================================================== *)

(** The single-precision value nearest to [n / d] ([0 < n], [0 < d]), ties
    to the even significand: the spacing of the values around [n / d] is
    [2^ex], with 24 significant bits above the subnormal range, [2^-149]
    in it.  [None] when the value is out of the range of the type: it
    rounds to an infinity or to zero, and the statement is rejected. *)
Definition round_b32 (n d : Z) : option number :=
  let ex := Z.max (ilog2 n d - 23) (-149) in
  let '(a, b) := scaled n d (- ex) in
  let m := a / b in
  let r := a mod b in
  let m' := if 2 * r <? b then m
            else if b <? 2 * r then m + 1
            else if Z.even m then m else m + 1 in
  if (104 <? ex) || ((ex =? 104) && (2 ^ 24 <=? m')) then None
  else if m' =? 0 then None
  else
    let '(p, q) := scaled m' 1 ex in
    Some (Fin (Qred (Qmake p (Z.to_pos q)))).

(** What a REAL column keeps of the text the driver sends for a number,
    which is the text of [Number::toString]: digits with an optional
    fraction and exponent, or one of the three special values.  [None]
    when the statement is rejected. *)
Definition real_in (s : string) : option number :=
  if String.eqb s "NaN" then Some NaN
  else if String.eqb s "Infinity" then Some PosInf
  else if String.eqb s "-Infinity" then Some NegInf
  else
    let '(neg, s1) := take_sign s in
    let '(ip, r1) := Str.span Str.is_digit s1 in
    let '(fp, r2) :=
      match r1 with
      | String "." t => Str.span Str.is_digit t
      | _ => (EmptyString, r1)
      end in
    match ip, fp with
    | EmptyString, EmptyString => None
    | _, _ =>
        let m := digits_value 0 (ip ++ fp) in
        let e := exponent_part r2 - Z.of_nat (String.length fp) in
        if m =? 0 then Some zero
        else
          match round_b32 (Qnum (dec_Q m e)) (Zpos (Qden (dec_Q m e))) with
          | Some (Fin v) => Some (Fin (if neg then Qopp v else v))
          | other => other
          end
    end.

(** What a REAL column keeps of the number [x]. *)
Definition stored_real (x : number) : option number :=
  real_in (Num.toString x).

(** The weight the column [weight] keeps for a row. *)
Definition stored_weight (r : hatch_log) : option number :=
  stored_real (h_weight r).

(** A hatch of 4.999999999 kg, and the store after its delivery to a fresh
    database. *)
Definition just_under_five : JsVal :=
  embed_payload "New hatch"
    [plain_field "Hatched From" "Rare Egg";
     plain_field "Weight" "4.999999999 kg"].

Definition logged_just_under_five : store :=
  snd (webhook None text_param just_under_five (empty_store [])).

(** A guild whose settings give the zone UTC+8. *)
Definition utc8_guild : store :=
  mkStore [mkSettingsRow "g8" (Some "c8") (Some "UTC+8") (Some (of_Z 1))]
          [] [].

(* ================================================================== *)
(** * The loop over the fields *)
(* ================================================================== *)

Lemma bind_inv {A B} (c : completion A) (k : A -> completion B) (b : B) :
  bind c k = Normal b -> exists a, c = Normal a /\ k a = Normal b.
Proof. destruct c as [a|e]; cbn; [eauto | discriminate]. Qed.

Lemma fields_loop_view (fs : list JsVal) :
  forall lvs st,
    fields_view fs = Normal lvs ->
    fields_loop fs st = Normal (fold_fields lvs st).
Proof.
  induction fs as [|f fs IH]; intros lvs st H.
  - cbn in H. injection H as <-. reflexivity.
  - unfold fields_view in H. cbn [List.map sequence] in H.
    apply bind_inv in H as [[l v] [Hf H]].
    apply bind_inv in H as [rest [Hrest H]].
    injection H as <-.
    unfold read_field in Hf.
    apply bind_inv in Hf as [l' [Hl Hf]].
    apply bind_inv in Hf as [v' [Hv Hf]].
    injection Hf as <- <-.
    cbn [fields_loop]. unfold field_step.
    rewrite Hl, Hv. cbn [bind].
    apply (IH rest). exact Hrest.
Qed.

Lemma fold_fields_eggName (lvs : list (string * string)) :
  forall st,
    eggName (fold_fields lvs st) =
    match last_match "from" lvs with
    | Some v => Some (JStr (Str.trim (Str.strip_egg v)))
    | None => eggName st
    end.
Proof.
  induction lvs as [|[l v] lvs IH]; intro st.
  - reflexivity.
  - unfold fold_fields in *. cbn [List.fold_left fst snd last_match].
    rewrite IH.
    destruct (last_match "from" lvs); [reflexivity|].
    unfold field_update. cbn [eggName].
    destruct (Str.includes "from" l); reflexivity.
Qed.

Lemma fold_fields_weight (lvs : list (string * string)) :
  forall st,
    weight (fold_fields lvs st) =
    match last_weight lvs with
    | Some w => w
    | None => weight st
    end.
Proof.
  induction lvs as [|[l v] lvs IH]; intro st.
  - reflexivity.
  - unfold fold_fields in *. cbn [List.fold_left fst snd last_weight].
    rewrite IH.
    destruct (last_weight lvs); [reflexivity|].
    unfold field_update. cbn [weight].
    destruct (Str.includes "weight" l); [|reflexivity].
    destruct (Re.first_number v); reflexivity.
Qed.

(* ================================================================== *)
(** * The name *)
(* ================================================================== *)

Lemma or_else_truthy (v : JsVal) (d : JsVal) :
  truthy (Some v) = true -> or_else (Some v) d = v.
Proof. unfold or_else. intros ->. reflexivity. Qed.

Lemma truthy_JStr (s : string) : s <> "" -> truthy (Some (JStr s)) = true.
Proof.
  intro H. cbn. destruct (String.eqb s "") eqn:E; [|reflexivity].
  apply String.eqb_eq in E. contradiction.
Qed.

Lemma kg_part_eggName (body : JsVal) (st : parsed) :
  eggName (kg_part body st) = eggName st.
Proof.
  unfold kg_part. destruct (weightMatch body); [|reflexivity].
  destruct (negb (Num.truthy (weight st))); reflexivity.
Qed.

(** The state after the loop, for a first embed whose fields can be read. *)
Lemma embed_fields_view (e : option JsVal) (fs : list JsVal)
    (lvs : list (string * string)) (st : parsed) :
  get e "fields" = Normal (Some (JArr fs)) ->
  fields_view fs = Normal lvs ->
  embed_fields e st =
    let st1 := fold_fields lvs st in
    if negb (truthy (eggName st1)) then
      title <- get e "title" ;;
      if truthy title then Normal (mkParsed title (weight st1))
      else Normal st1
    else Normal st1.
Proof.
  intros Hf Hv. unfold embed_fields. rewrite Hf. cbn [bind].
  rewrite (fields_loop_view fs lvs st Hv). reflexivity.
Qed.

(** C1, as amended: when the first embed has a list of fields and the name
    left by the last field whose label contains "from" (its value without
    the occurrences of "egg", trimmed) is not empty, that name is the name
    [parseWebhookPayload] returns. *)
Theorem name_from_last_from_field
    (body : JsVal) (e : option JsVal) (fs : list JsVal)
    (lvs : list (string * string)) (v : string) :
  first_embed body = Normal (Some e) ->
  get e "fields" = Normal (Some (JArr fs)) ->
  fields_view fs = Normal lvs ->
  last_match "from" lvs = Some v ->
  Str.trim (Str.strip_egg v) <> "" ->
  exists w,
    parseWebhookPayload body = Normal (JStr (Str.trim (Str.strip_egg v)), w).
Proof.
  intros He Hf Hv Hlast Hne.
  assert (Ht := truthy_JStr _ Hne).
  unfold parseWebhookPayload, embed_part.
  rewrite He. cbn [bind].
  rewrite (embed_fields_view e fs lvs _ Hf Hv). cbv zeta.
  rewrite fold_fields_eggName, Hlast, Ht. cbn [negb bind].
  unfold content_part.
  rewrite fold_fields_eggName, Hlast, Ht. cbn [negb bind].
  eexists. unfold finish.
  rewrite kg_part_eggName, fold_fields_eggName, Hlast.
  rewrite (or_else_truthy _ _ Ht). reflexivity.
Qed.

(** The example of the specification: two fields labelled "Hatched From",
    the second one gives the name. *)
Lemma name_from_last_from_field_witness :
  exists w,
    parseWebhookPayload two_from_fields = Normal (JStr "Rare", w).
Proof.
  apply (name_from_last_from_field two_from_fields
           (Some (JObj [("title", JStr "New hatch");
                        ("fields", JArr [plain_field "Hatched From" "Common Egg";
                                         plain_field "Hatched From" "Rare Egg"])]))
           [plain_field "Hatched From" "Common Egg";
            plain_field "Hatched From" "Rare Egg"]
           [("hatched from", "Common Egg"); ("hatched from", "Rare Egg")]
           "Rare Egg").
  - reflexivity.
  - reflexivity.
  - reflexivity.
  - reflexivity.
  - discriminate.
Defined.

(** C1 as stated fails: the last "from" field has the value "Egg", which
    leaves the empty name, and the title is returned instead. *)
Lemma name_from_last_from_field_counterexample :
  block_fields egg_only_field = Normal [plain_field "Hatched From" "Egg"] /\
  fields_view [plain_field "Hatched From" "Egg"]
    = Normal [("hatched from", "Egg")] /\
  last_match "from" [("hatched from", "Egg")] = Some "Egg" /\
  Str.trim (Str.strip_egg "Egg") = "" /\
  parseWebhookPayload egg_only_field = Normal (JStr "Golden", zero) /\
  JStr "Golden" <> JStr (Str.trim (Str.strip_egg "Egg")).
Proof.
  repeat split; try reflexivity. discriminate.
Qed.

Lemma space_not_e (c : ascii) : Str.is_space c = true -> Str.ci_eqb "e" c = false.
Proof.
  destruct c as [[] [] [] [] [] [] [] []]; vm_compute; congruence.
Qed.

Lemma strip_egg_space (c : ascii) (s : string) :
  Str.is_space c = true ->
  Str.strip_egg (String c s) = String c (Str.strip_egg s).
Proof.
  intro H. destruct s as [|b [|d r]]; try reflexivity.
  cbn [Str.strip_egg]. rewrite (space_not_e c H). reflexivity.
Qed.

Lemma strip_egg_egg (a b c : ascii) (s : string) :
  Str.ci_eqb "e" a && Str.ci_eqb "g" b && Str.ci_eqb "g" c = true ->
  Str.strip_egg (String a (String b (String c s))) = Str.strip_egg s.
Proof. intro H. cbn [Str.strip_egg]. rewrite H. reflexivity. Qed.

(** Text made of white space and of occurrences of "egg" leaves the empty
    name. *)
Lemma egg_or_space_empty (v : string) :
  egg_or_space v -> Str.trim (Str.strip_egg v) = "".
Proof.
  intro H. unfold Str.trim.
  enough (E : Str.trimStart (Str.strip_egg v) = "") by (rewrite E; reflexivity).
  induction H as [|c s Hc _ IH|a b c s Habc _ IH].
  - reflexivity.
  - rewrite (strip_egg_space c s Hc). cbn [Str.trimStart]. rewrite Hc. exact IH.
  - rewrite (strip_egg_egg a b c s Habc). exact IH.
Qed.

(** C10: when the last "from" field of the first embed holds only white
    space and occurrences of "egg", the name comes from the later
    strategies: the title of the embed when it has one; otherwise the
    capture of the content pattern, stripped and trimmed, when that is not
    empty; otherwise "Unknown".  The empty string is never the name. *)
Theorem empty_field_name_falls_through
    (body : JsVal) (e : option JsVal) (fs : list JsVal)
    (lvs : list (string * string)) (v : string)
    (title content : option JsVal) :
  first_embed body = Normal (Some e) ->
  get e "fields" = Normal (Some (JArr fs)) ->
  fields_view fs = Normal lvs ->
  last_match "from" lvs = Some v ->
  egg_or_space v ->
  get e "title" = Normal title ->
  get (Some body) "content" = Normal content ->
  (forall t, title = Some t -> truthy title = true ->
     exists w, parseWebhookPayload body = Normal (t, w)) /\
  (truthy title = false ->
   forall c m1,
     content = Some (JStr c) -> c <> "" ->
     Re.hatched_from c = Some m1 ->
     Str.trim (Str.strip_egg m1) <> "" ->
     exists w,
       parseWebhookPayload body
       = Normal (JStr (Str.trim (Str.strip_egg m1)), w)) /\
  (truthy title = false ->
   (truthy content = false \/
    exists c, content = Some (JStr c) /\
      (Re.hatched_from c = None \/
       exists m1, Re.hatched_from c = Some m1 /\
                  Str.trim (Str.strip_egg m1) = "")) ->
   exists w, parseWebhookPayload body = Normal (JStr "Unknown", w)) /\
  (forall w, parseWebhookPayload body <> Normal (JStr "", w)).
Proof.
  intros He Hf Hv Hlast Hegg Htitle Hcontent.
  pose proof (egg_or_space_empty v Hegg) as Hempty.
  assert (Hloop : eggName (fold_fields lvs (mkParsed None zero)) = Some (JStr "")).
  { rewrite fold_fields_eggName, Hlast, Hempty. reflexivity. }
  assert (Hparse : parseWebhookPayload body =
            (st1 <- (if truthy title
                     then Normal (mkParsed title
                                    (weight (fold_fields lvs (mkParsed None zero))))
                     else Normal (fold_fields lvs (mkParsed None zero))) ;;
             st2 <- content_part body st1 ;;
             Normal (finish (kg_part body st2)))).
  { unfold parseWebhookPayload, embed_part. rewrite He. cbn [bind].
    rewrite (embed_fields_view e fs lvs _ Hf Hv). cbv zeta.
    rewrite Hloop. cbn [truthy String.eqb negb]. rewrite Htitle. reflexivity. }
  repeat split.
  - (* the title *)
    intros t -> Ht. rewrite Hparse, Ht. cbn [bind].
    unfold content_part. cbn [eggName]. rewrite Ht. cbn [negb bind].
    eexists. unfold finish. rewrite kg_part_eggName. cbn [eggName].
    rewrite (or_else_truthy _ _ Ht). reflexivity.
  - (* the content pattern *)
    intros Ht c m1 -> Hc Hm Hne. rewrite Hparse, Ht. cbn [bind].
    unfold content_part. rewrite Hloop. cbn [truthy String.eqb negb].
    rewrite Hcontent. cbn [bind as_string_receiver].
    rewrite (truthy_JStr c Hc). cbn [bind]. rewrite Hm. cbn [bind].
    eexists. unfold finish. rewrite kg_part_eggName. cbn [eggName].
    rewrite (or_else_truthy _ _ (truthy_JStr _ Hne)). reflexivity.
  - (* the literal *)
    intros Ht Hc. rewrite Hparse, Ht. cbn [bind].
    unfold content_part. rewrite Hloop. cbn [truthy String.eqb negb].
    rewrite Hcontent. cbn [bind].
    destruct Hc as [Hc | [c [-> Hc]]].
    + destruct content as [cv|].
      * rewrite Hc. cbn [bind]. eexists. unfold finish.
        rewrite kg_part_eggName, Hloop. reflexivity.
      * cbn [bind]. eexists. unfold finish.
        rewrite kg_part_eggName, Hloop. reflexivity.
    + destruct (truthy (Some (JStr c))).
      * cbn [as_string_receiver bind].
        destruct Hc as [Hc | [m1 [Hc Hm]]]; rewrite Hc; cbn [bind].
        -- eexists. unfold finish. rewrite kg_part_eggName, Hloop. reflexivity.
        -- eexists. unfold finish. rewrite kg_part_eggName. cbn [eggName].
           rewrite Hm. reflexivity.
      * cbn [bind]. eexists. unfold finish.
        rewrite kg_part_eggName, Hloop. reflexivity.
  - (* never the empty string *)
    intros w H. unfold parseWebhookPayload in H.
    apply bind_inv in H as [st1 [_ H]].
    apply bind_inv in H as [st2 [_ H]].
    injection H as Hn _. unfold finish in Hn. cbn [fst] in Hn.
    rewrite kg_part_eggName in Hn. unfold or_else in Hn.
    destruct (eggName st2) as [n|]; [|discriminate Hn].
    destruct (truthy (Some n)) eqn:T; [|discriminate Hn].
    subst n. discriminate T.
Qed.

(** A "from" field holding " Egg EGG " and no title: the content gives the
    name. *)
Lemma empty_field_name_falls_through_witness :
  exists w,
    parseWebhookPayload blank_from_field = Normal (JStr "Legendary", w).
Proof.
  refine (proj1 (proj2 (empty_field_name_falls_through
           blank_from_field
           (Some (JObj [("fields",
                     JArr [plain_field "Hatched From" " Egg EGG "])]))
           [plain_field "Hatched From" " Egg EGG "]
           [("hatched from", " Egg EGG ")]
           " Egg EGG "
           None
           (Some (JStr "Hatched From: Legendary Egg"))
           eq_refl eq_refl eq_refl eq_refl _ eq_refl eq_refl))
         eq_refl "Hatched From: Legendary Egg" "Legendary Egg"
         eq_refl _ eq_refl _).
  - apply eos_space; [reflexivity|].
    apply eos_egg; [reflexivity|].
    apply eos_space; [reflexivity|].
    apply eos_egg; [reflexivity|].
    apply eos_space; [reflexivity|].
    apply eos_empty.
  - discriminate.
  - discriminate.
Defined.

(* ================================================================== *)
(** * Totality on the known shapes *)
(* ================================================================== *)

Lemma read_field_ok (f : JsVal) :
  field_ok f = true -> exists lv, read_field f = Normal lv.
Proof.
  destruct f as [| | | | |props]; try discriminate.
  cbn [field_ok]. intro H. apply andb_true_iff in H as [Hn Hv].
  unfold read_field, field_label, field_value. cbn [get bind].
  destruct (lookup "name" props) as [[| | |n| |]|]; try discriminate Hn;
  destruct (lookup "value" props) as [[| | |v| |]|]; try discriminate Hv;
  unfold or_else; cbn [truthy];
  repeat match goal with
         | |- context [if ?b then _ else _] => destruct b
         end;
  cbn [as_string_receiver to_string bind]; eexists; reflexivity.
Qed.

Lemma fields_view_ok (fs : list JsVal) :
  forallb field_ok fs = true -> exists lvs, fields_view fs = Normal lvs.
Proof.
  induction fs as [|f fs IH]; intro H.
  - exists []. reflexivity.
  - cbn [forallb] in H. apply andb_true_iff in H as [Hf Hfs].
    destruct (read_field_ok f Hf) as [lv Hlv].
    destruct (IH Hfs) as [lvs Hlvs].
    exists (lv :: lvs). unfold fields_view in *.
    cbn [List.map sequence]. rewrite Hlv, Hlvs. reflexivity.
Qed.

Lemma fold_fields_name_ok (lvs : list (string * string)) (st : parsed) :
  name_ok st -> name_ok (fold_fields lvs st).
Proof.
  intro H. unfold name_ok. rewrite fold_fields_eggName.
  destruct (last_match "from" lvs); [right; eauto | exact H].
Qed.

Lemma truthy_length (n : nat) :
  truthy (Some (JNum (of_Z (Z.of_nat (S n))))) = true.
Proof.
  cbn [truthy Num.truthy of_Z]. unfold Qeq_bool, inject_Z. cbn [Qnum Qden].
  destruct (Z.of_nat (S n)) eqn:E; try reflexivity. lia.
Qed.

Lemma embed_fields_ok (e : JsVal) (st : parsed) :
  embed_ok e = true -> name_ok st ->
  exists st1, embed_fields (Some e) st = Normal st1 /\ name_ok st1.
Proof.
  destruct e as [| | | | |props]; try discriminate.
  cbn [embed_ok]. intros H Hst. apply andb_true_iff in H as [Ht Hf].
  unfold embed_fields. cbn [get bind].
  assert (Hloop : exists st1,
            match lookup "fields" props with
            | Some (JArr fs) => fields_loop fs st
            | _ => Normal st
            end = Normal st1 /\ name_ok st1).
  { destruct (lookup "fields" props) as [[| | | |fs|]|]; try discriminate Hf;
      try (exists st; split; [reflexivity | exact Hst]).
    destruct (fields_view_ok fs Hf) as [lvs Hlvs].
    exists (fold_fields lvs st). split.
    - apply fields_loop_view, Hlvs.
    - apply fold_fields_name_ok, Hst. }
  destruct Hloop as [st1 [-> Hst1]]. cbn [bind].
  destruct (negb (truthy (eggName st1))); [|eauto].
  destruct (lookup "title" props) as [[| | |t| |]|]; try discriminate Ht.
  - destruct (truthy (Some (JStr t))); [|eauto].
    eexists; split; [reflexivity|]. right. cbn [eggName]. eauto.
  - cbn [truthy]. eauto.
Qed.

Lemma embed_part_ok (body : JsVal) (st : parsed) :
  known_shape body = true -> name_ok st ->
  exists st1, embed_part body st = Normal st1 /\ name_ok st1.
Proof.
  destruct body as [| | | | |props]; try discriminate.
  cbn [known_shape]. intros H Hst. apply andb_true_iff in H as [He _].
  unfold embed_part, first_embed. cbn [get bind].
  destruct (lookup "embeds" props) as [[| | | |es|]|]; try discriminate He.
  - destruct es as [|e es].
    + cbn. eauto.
    + cbn [forallb] in He. apply andb_true_iff in He as [He _].
      cbn [get_opt get String.eqb Ascii.eqb Bool.eqb List.length bind].
      rewrite truthy_length.
      change (get (Some (JArr (e :: es))) "0") with (Normal (Some e)).
      cbn [bind]. apply embed_fields_ok; assumption.
  - cbn. eauto.
Qed.

Lemma content_part_ok (body : JsVal) (st : parsed) :
  known_shape body = true -> name_ok st ->
  exists st2, content_part body st = Normal st2 /\ name_ok st2.
Proof.
  destruct body as [| | | | |props]; try discriminate.
  cbn [known_shape]. intros H Hst. apply andb_true_iff in H as [_ Hc].
  unfold content_part. destruct (negb (truthy (eggName st))); [|eauto].
  cbn [get bind].
  destruct (lookup "content" props) as [[| | |c| |]|]; try discriminate Hc;
    [|eauto].
  destruct (truthy (Some (JStr c))); [|eauto].
  cbn [as_string_receiver bind].
  destruct (Re.hatched_from c); [|eauto].
  eexists; split; [reflexivity|]. right. cbn [eggName]. eauto.
Qed.

Lemma finish_ok (body : JsVal) (st : parsed) :
  name_ok st ->
  exists s w, finish (kg_part body st) = (JStr s, w) /\ s <> "".
Proof.
  intro H. unfold finish. rewrite kg_part_eggName.
  destruct H as [E | [s E]]; rewrite E.
  - exists "Unknown". eexists. split; [reflexivity | discriminate].
  - unfold or_else. cbn [truthy].
    destruct (String.eqb s "") eqn:Es; cbn [negb].
    + exists "Unknown". eexists. split; [reflexivity | discriminate].
    + exists s. eexists. split; [reflexivity|].
      intros ->. discriminate Es.
Qed.

(** C9: on every payload of the known shapes, with any of the parts
    absent, [parseWebhookPayload] does not throw: it returns a name, which
    is a string and not empty, and a weight.  An object without embeds and
    content whose serialization holds no weight gives "Unknown" and 0, as
    the empty object does. *)
Theorem parseWebhookPayload_total :
  (forall body,
     known_shape body = true ->
     exists s w, parseWebhookPayload body = Normal (JStr s, w) /\ s <> "") /\
  (forall props,
     lookup "embeds" props = None ->
     lookup "content" props = None ->
     weightMatch (JObj props) = None ->
     parseWebhookPayload (JObj props) = Normal (JStr "Unknown", zero)) /\
  parseWebhookPayload (JObj []) = Normal (JStr "Unknown", zero).
Proof.
  split; [|split; [|reflexivity]].
  - intros body H. unfold parseWebhookPayload.
    destruct (embed_part_ok body (mkParsed None zero) H) as [st1 [-> H1]].
    { left. reflexivity. }
    cbn [bind].
    destruct (content_part_ok body st1 H H1) as [st2 [-> H2]].
    cbn [bind].
    destruct (finish_ok body st2 H2) as [s [w [-> Hs]]].
    eauto.
  - intros props He Hc Hw.
    unfold parseWebhookPayload, embed_part, first_embed, content_part, kg_part.
    cbn [get bind]. rewrite He. cbn [get_opt truthy bind eggName negb].
    cbn [get bind]. rewrite Hc, Hw. reflexivity.
Qed.

(** An embed with a title only: the fields and the content are absent. *)
Lemma parseWebhookPayload_total_witness :
  exists s w,
    parseWebhookPayload title_only = Normal (JStr s, w) /\ s <> "".
Proof.
  apply (proj1 parseWebhookPayload_total title_only).
  reflexivity.
Defined.

(* ================================================================== *)
(** * The weight *)
(* ================================================================== *)

Lemma get_normal_any (v : option JsVal) (k k' : string) (x : option JsVal) :
  get v k = Normal x -> exists y, get v k' = Normal y.
Proof.
  destruct v as [[| | | | |]|]; cbn [get]; try discriminate; intros _.
  - eauto.
  - eauto.
  - destruct (String.eqb k' "length"); [eauto|].
    destruct (array_index k'); eauto.
  - destruct (String.eqb k' "length"); [eauto|].
    destruct (array_index k'); eauto.
  - eauto.
Qed.

Lemma embed_part_weight (body : JsVal) (fs : list JsVal)
    (lvs : list (string * string)) (st : parsed) :
  block_fields body = Normal fs ->
  fields_view fs = Normal lvs ->
  exists st1, embed_part body st = Normal st1 /\
              weight st1 = weight (fold_fields lvs st).
Proof.
  unfold block_fields, embed_part. intros Hb Hv.
  destruct (first_embed body) as [[e|]|err]; cbn [bind] in *;
    try discriminate Hb.
  - unfold embed_fields.
    destruct (get e "fields") as [fields|err] eqn:Hf; cbn [bind] in *;
      try discriminate Hb.
    destruct (get_normal_any e "fields" "title" fields Hf) as [title Ht].
    assert (Hloop : exists st1,
              match fields with
              | Some (JArr fs0) => fields_loop fs0 st
              | _ => Normal st
              end = Normal st1 /\ weight st1 = weight (fold_fields lvs st)).
    { destruct fields as [[| | | |fs0|]|];
        try (injection Hb as <-; cbn in Hv; injection Hv as <-;
             exists st; split; reflexivity).
      injection Hb as ->. exists (fold_fields lvs st).
      split; [apply fields_loop_view, Hv | reflexivity]. }
    destruct Hloop as [st1 [-> Hw]]. cbn [bind].
    destruct (negb (truthy (eggName st1))); [|eauto].
    rewrite Ht. cbn [bind].
    destruct (truthy title); eauto.
  - injection Hb as <-. cbn in Hv. injection Hv as <-.
    exists st. split; reflexivity.
Qed.

Lemma content_part_weight (body : JsVal) (st : parsed) :
  content_ok body = true ->
  exists st2, content_part body st = Normal st2 /\ weight st2 = weight st.
Proof.
  unfold content_ok, content_part. intro H.
  destruct (negb (truthy (eggName st))); [|eauto].
  destruct (get (Some body) "content") as [[c|]|err]; cbn [bind];
    try discriminate H; [|eauto].
  destruct c; cbn [truthy negb] in *; try discriminate H;
    try (eexists; split; reflexivity);
    try (apply negb_true_iff in H; rewrite H; eauto).
  destruct (negb (String.eqb s "")); [|eauto].
  cbn [as_string_receiver bind].
  destruct (Re.hatched_from s); eauto.
Qed.

(** C3, as amended: the weight found in the serialized payload is used
    exactly when the fields of the first embed left the weight at 0 (no
    weight-labelled field with a numeric token, or a token whose value is
    0), and is then the number matched; otherwise the weight is the one
    read from the fields. *)
Theorem weight_from_fields_or_search
    (body : JsVal) (fs : list JsVal) (lvs : list (string * string)) :
  block_fields body = Normal fs ->
  fields_view fs = Normal lvs ->
  content_ok body = true ->
  exists name,
    parseWebhookPayload body =
    Normal (name,
            let w1 := match last_weight lvs with
                      | Some w => w
                      | None => zero
                      end in
            if Num.truthy w1 then w1
            else match weightMatch body with
                 | Some m1 => parseFloat m1
                 | None => w1
                 end).
Proof.
  intros Hb Hv Hc. unfold parseWebhookPayload.
  destruct (embed_part_weight body fs lvs (mkParsed None zero) Hb Hv)
    as [st1 [-> H1]].
  cbn [bind].
  destruct (content_part_weight body st1 Hc) as [st2 [-> H2]].
  cbn [bind]. eexists. unfold finish. f_equal. f_equal.
  rewrite fold_fields_weight in H1. cbn [weight] in H1.
  cbv zeta. rewrite <- H1, <- H2.
  unfold kg_part.
  destruct (weightMatch body); destruct (Num.truthy (weight st2));
    reflexivity.
Qed.

(** The example of the specification: no weight field and "7.25kg" in the
    serialized payload give the weight 7.25, a semi-titan. *)
Lemma weight_from_fields_or_search_witness :
  (exists name, parseWebhookPayload kg_in_content = Normal (name, Fin (29 # 4))) /\
  classifyRarity (Fin (29 # 4)) = Some semi_titan.
Proof.
  split; [|reflexivity].
  apply (weight_from_fields_or_search kg_in_content [] []); reflexivity.
Defined.

(** C3 as stated fails.  A field "Weight" of value "0" is found by the first
    strategy, and the search is used all the same.  And a serialization
    that contains "7.25kg" need not give 7.25: in "17.25kg" the match
    starts one digit earlier. *)
Lemma weight_from_fields_or_search_counterexample :
  (block_fields zero_weight_field = Normal [plain_field "Weight" "0"] /\
   fields_view [plain_field "Weight" "0"] = Normal [("weight", "0")] /\
   last_weight [("weight", "0")] = Some zero /\
   weightMatch zero_weight_field = Some "5" /\
   parseWebhookPayload zero_weight_field = Normal (JStr "Unknown", Fin 5) /\
   Fin 5 <> zero) /\
  (block_fields longer_number = Normal [] /\
   Str.includes "7.25kg" (stringify longer_number) = true /\
   parseWebhookPayload longer_number = Normal (JStr "Unknown", Fin (69 # 4)) /\
   Fin (69 # 4) <> Fin (29 # 4) /\
   classifyRarity (Fin (69 # 4)) = None).
Proof.
  repeat split; try reflexivity; discriminate.
Qed.

(* ================================================================== *)
(** * The classifier *)
(* ================================================================== *)

Lemma Qle_bool_false (a b : Q) : Qle_bool a b = false <-> (b < a)%Q.
Proof.
  split; intro H.
  - apply Qnot_le_lt. intro L. apply Qle_bool_iff in L. congruence.
  - destruct (Qle_bool a b) eqn:E; [|reflexivity].
    apply Qle_bool_iff in E. lra.
Qed.

(** C2: [classifyRarity] returns the tier of the band the weight lies in:
    [4,5) semi_huge, [5,7) huge, [7,8) semi_titan, [8,9) titan, [9,15]
    godly, and [null] for every other number, NaN and the infinities
    included; the six boundary values of the specification are classified
    as it says. *)
Theorem classifyRarity_bands :
  (forall q : Q,
     (classifyRarity (Fin q) = Some semi_huge <-> (4 <= q /\ q < 5)%Q) /\
     (classifyRarity (Fin q) = Some huge <-> (5 <= q /\ q < 7)%Q) /\
     (classifyRarity (Fin q) = Some semi_titan <-> (7 <= q /\ q < 8)%Q) /\
     (classifyRarity (Fin q) = Some titan <-> (8 <= q /\ q < 9)%Q) /\
     (classifyRarity (Fin q) = Some godly <-> (9 <= q /\ q <= 15)%Q) /\
     (classifyRarity (Fin q) = None <-> (q < 4 \/ 15 < q)%Q)) /\
  classifyRarity NaN = None /\
  classifyRarity PosInf = None /\
  classifyRarity NegInf = None /\
  classifyRarity (parseFloat "3.999") = None /\
  classifyRarity (parseFloat "4.0") = Some semi_huge /\
  classifyRarity (parseFloat "8.999") = Some titan /\
  classifyRarity (parseFloat "9.0") = Some godly /\
  classifyRarity (parseFloat "15.0") = Some godly /\
  classifyRarity (parseFloat "15.001") = None.
Proof.
  split; [|repeat split; reflexivity].
  intro q.
  unfold classifyRarity, geb, leb, ltb, lit, of_Z.
  change (inject_Z 4) with 4%Q. change (inject_Z 5) with 5%Q.
  change (inject_Z 7) with 7%Q. change (inject_Z 8) with 8%Q.
  change (inject_Z 9) with 9%Q. change (inject_Z 15) with 15%Q.
  repeat match goal with
         | |- context [Qle_bool ?a ?b] =>
             let E := fresh "E" in
             destruct (Qle_bool a b) eqn:E;
             [apply Qle_bool_iff in E | apply Qle_bool_false in E]
         end;
    cbn [andb negb];
    repeat split; intros; try discriminate; try lra;
    try (left; lra); try (right; lra).
  all: match goal with H : _ \/ _ |- _ => destruct H; lra end.
Qed.

(* ================================================================== *)
(** * The webhook route and the event log *)
(* ================================================================== *)

Section Webhook.

Variable WEBHOOK_CHANNEL_ID : option string.
Variable prepareValue : JsVal -> string.

Lemma keeps_ret {A} (a : A) : keeps_log (ret a).
Proof. intros st H. exact H. Qed.

Lemma keeps_lift {A} (c : completion A) : keeps_log (lift c).
Proof. intros st H. exact H. Qed.

Lemma keeps_mbind {A B} (m : M A) (k : A -> M B) :
  keeps_log m -> (forall a, keeps_log (k a)) -> keeps_log (mbind m k).
Proof.
  intros Hm Hk st H. unfold mbind. specialize (Hm st H).
  destruct (m st) as [[a|e] st']; cbn [snd] in *.
  - apply Hk, Hm.
  - exact Hm.
Qed.

Lemma keeps_query {A} (run : store -> A * store) :
  (forall st, Forall log_ok (hatch_logs st) ->
              Forall log_ok (hatch_logs (snd (run st)))) ->
  keeps_log (query run).
Proof.
  intros Hrun st H. unfold query.
  destruct (faults st) as [|[] fs]; cbn [snd hatch_logs]; try exact H;
    specialize (Hrun st H); destruct (run st) as [a st']; exact Hrun.
Qed.

Lemma keeps_lift_bind {A B} (c : completion A) (k : A -> M B) :
  (forall a, c = Normal a -> keeps_log (k a)) -> keeps_log (mbind (lift c) k).
Proof.
  intros Hk st H. unfold mbind, lift. destruct c as [a|e].
  - apply (Hk a eq_refl), H.
  - exact H.
Qed.

Lemma keeps_insertLog (g : string) (n : JsVal) (w : number) :
  (exists payload, parseWebhookPayload payload = Normal (n, w)) ->
  keeps_log (insertLog g n w (classifyRarity w)).
Proof.
  intro Hp. apply keeps_query. intros st H. cbn [snd hatch_logs].
  apply Forall_app. split; [exact H|].
  constructor; [split; [reflexivity | exact Hp] | constructor].
Qed.

Lemma keeps_saveSettings (g c tz : string) (l : number) :
  keeps_log (saveSettings g c tz l).
Proof. apply keeps_query. intros st H. exact H. Qed.

Lemma keeps_webhook_try (payload : JsVal) :
  keeps_log (webhook_try WEBHOOK_CHANNEL_ID prepareValue payload).
Proof.
  unfold webhook_try.
  apply keeps_lift_bind. intros [name w] Hp.
  assert (Hw : exists p, parseWebhookPayload p = Normal (name, w))
    by (exists payload; exact Hp).
  apply keeps_mbind; [apply keeps_lift|]. intro cid.
  apply keeps_mbind; [apply keeps_query; intros st H; exact H|]. intro sres.
  apply keeps_mbind.
  - destruct (negb (nonempty _)); [|apply keeps_ret].
    apply keeps_mbind; [apply keeps_query; intros st H; exact H|].
    intros [|r rest]; apply keeps_ret.
  - intros [g|]; [|apply keeps_insertLog, Hw].
    destruct (negb (nonempty (Some g))); apply keeps_insertLog, Hw.
Qed.

Lemma keeps_webhook (payload : JsVal) (st : store) :
  Forall log_ok (hatch_logs st) ->
  Forall log_ok
    (hatch_logs (snd (webhook WEBHOOK_CHANNEL_ID prepareValue payload st))).
Proof.
  intro H. pose proof (keeps_webhook_try payload st H) as K.
  unfold webhook.
  destruct (webhook_try WEBHOOK_CHANNEL_ID prepareValue payload st)
    as [[u|e] st']; exact K.
Qed.

(** C7, as amended: in every state the store can reach, each row of the
    event log was made from the name and the weight [parseWebhookPayload]
    found in some payload, and holds the rarity [classifyRarity] gives for
    that weight: a tier when the weight lies in a band, [null] otherwise.
    The weight is the one handed to the INSERT statement; the column keeps
    it in single precision, see [stored_weight]. *)
Theorem log_rarity_invariant (st : store) :
  reachable WEBHOOK_CHANNEL_ID prepareValue st ->
  Forall (fun r => h_rarity r = classifyRarity (h_weight r) /\
                   exists payload,
                     parseWebhookPayload payload
                     = Normal (h_egg_name r, h_weight r))
         (hatch_logs st).
Proof.
  intro R. change (Forall log_ok (hatch_logs st)).
  induction R as [fs | st payload _ IH | st g c tz l _ IH | st fs _ IH].
  - constructor.
  - apply keeps_webhook, IH.
  - apply keeps_saveSettings, IH.
  - exact IH.
Qed.


End Webhook.


(** After two deliveries and a [/setup]. *)
Lemma log_rarity_invariant_witness :
  Forall (fun r => h_rarity r = classifyRarity (h_weight r) /\
                   exists payload,
                     parseWebhookPayload payload
                     = Normal (h_egg_name r, h_weight r))
    (hatch_logs
       (snd (webhook None text_param
               (JObj [("content", JStr "Hatched From: Rare Egg 8.5 kg")])
               (snd (saveSettings "g1" "c1" "UTC+8" (of_Z 1)
                  (snd (webhook None text_param
                          (JObj [("content", JStr "3kg")])
                          (empty_store [])))))))).
Proof.
  apply (log_rarity_invariant None text_param).
  apply reach_webhook, reach_setup, reach_webhook, reach_init.
Defined.

(** C7 as stated fails on the weight the store keeps.  A hatch of
    4.999999999 kg is classified semi_huge; the REAL column keeps the
    weight 5, the nearest single-precision value, and 5 is huge. *)
Lemma log_rarity_invariant_counterexample :
  reachable None text_param logged_just_under_five /\
  List.map h_rarity (hatch_logs logged_just_under_five) = [Some semi_huge] /\
  List.map stored_weight (hatch_logs logged_just_under_five)
  = [Some (of_Z 5)] /\
  classifyRarity (of_Z 5) = Some huge /\
  Some semi_huge <> classifyRarity (of_Z 5).
Proof.
  split; [apply reach_webhook, reach_init|].
  split; [vm_compute; reflexivity|].
  split; [vm_compute; reflexivity|].
  split; [vm_compute; reflexivity|].
  vm_compute. discriminate.
Qed.

(* ================================================================== *)
(** * The settings *)
(* ================================================================== *)

Section Settings.

Variable WEBHOOK_CHANNEL_ID : option string.
Variable DEFAULT_TZ : string.
Variable DEFAULT_LOSS : number.

Lemma filter_find {A} (p : A -> bool) (l : list A) :
  List.find p l = List.hd_error (List.filter p l).
Proof.
  induction l as [|x l IH]; [reflexivity|].
  cbn [List.find List.filter]. destruct (p x); [reflexivity | exact IH].
Qed.

Lemma positive_truthy (l : number) :
  Num.ltb zero l = true -> Num.truthy l = true.
Proof.
  destruct l as [| | |q]; cbn; try congruence.
  intro H. apply negb_true_iff in H. apply negb_true_iff.
  destruct (Qeq_bool q 0) eqn:E; [|reflexivity].
  apply Qeq_bool_iff in E.
  assert (L : (q <= 0)%Q) by (rewrite E; apply Qle_refl).
  apply Qle_bool_iff in L. congruence.
Qed.

Lemma getSettings_run (guildId : string) (st : store) :
  no_fault 1 st ->
  fst (getSettings WEBHOOK_CHANNEL_ID DEFAULT_TZ DEFAULT_LOSS guildId st) =
  match stored_row guildId st with
  | None =>
      Normal (mkGuildSettings WEBHOOK_CHANNEL_ID DEFAULT_TZ DEFAULT_LOSS)
  | Some r =>
      Normal (mkGuildSettings
                (if nonempty (s_webhook_channel_id r)
                 then s_webhook_channel_id r else WEBHOOK_CHANNEL_ID)
                (match s_timezone_offset r with
                 | Some tz => if nonempty (Some tz) then tz else DEFAULT_TZ
                 | None => DEFAULT_TZ
                 end)
                (parseFloat
                   (Num.toString
                      (match s_loss_multiplier r with
                       | Some l => if Num.truthy l then l else DEFAULT_LOSS
                       | None => DEFAULT_LOSS
                       end))))
  end.
Proof.
  intro Hf. unfold stored_row. rewrite filter_find.
  unfold getSettings, mbind, query.
  destruct (faults st) as [|b fs] eqn:Ef.
  - cbn [List.tl]. destruct (List.filter _ (settings st)); reflexivity.
  - assert (b = false) by (apply Hf; rewrite Ef; cbn; tauto). subst b.
    cbn [List.tl]. destruct (List.filter _ (settings st)); reflexivity.
Qed.

(** C8: [getSettings] merges the stored row with the defaults field by
    field.  Without a row it returns exactly the defaults.  With a row
    whose time zone is NULL or empty it returns the default time zone
    together with the stored channel and the stored loss multiplier, for a
    channel that is not empty and a multiplier that is positive, as the
    data model has it (and, as every binary64 value does, reads back from
    its decimal text).  A stored time zone that is not empty is returned as
    it is. *)
Theorem getSettings_merges_defaults (guildId : string) (st : store) :
  no_fault 1 st ->
  (stored_row guildId st = None ->
   fst (getSettings WEBHOOK_CHANNEL_ID DEFAULT_TZ DEFAULT_LOSS guildId st) =
   Normal (mkGuildSettings WEBHOOK_CHANNEL_ID DEFAULT_TZ DEFAULT_LOSS)) /\
  (forall r c l,
     stored_row guildId st = Some r ->
     nonempty (s_timezone_offset r) = false ->
     s_webhook_channel_id r = Some c -> c <> "" ->
     s_loss_multiplier r = Some l -> Num.ltb zero l = true ->
     parseFloat (Num.toString l) = l ->
     fst (getSettings WEBHOOK_CHANNEL_ID DEFAULT_TZ DEFAULT_LOSS guildId st) =
     Normal (mkGuildSettings (Some c) DEFAULT_TZ l)) /\
  (forall r tz,
     stored_row guildId st = Some r ->
     s_timezone_offset r = Some tz -> tz <> "" ->
     exists s,
       fst (getSettings WEBHOOK_CHANNEL_ID DEFAULT_TZ DEFAULT_LOSS guildId st)
       = Normal s /\ timezone_offset s = tz).
Proof.
  intro Hf. pose proof (getSettings_run guildId st Hf) as Hrun.
  repeat split.
  - intro Hrow. rewrite Hrun, Hrow. reflexivity.
  - intros r c l Hrow Htz Hc Hne Hl Hpos Hrt. rewrite Hrun, Hrow.
    rewrite Hc, Hl, (positive_truthy l Hpos), Hrt.
    assert (nonempty (Some c) = true) as ->.
    { cbn. destruct (String.eqb c "") eqn:E; [|reflexivity].
      apply String.eqb_eq in E. contradiction. }
    destruct (s_timezone_offset r) as [tz|]; [|reflexivity].
    rewrite Htz. reflexivity.
  - intros r tz Hrow Htz Hne. rewrite Hrun, Hrow. eexists. split; [reflexivity|].
    cbn [timezone_offset]. rewrite Htz.
    assert (nonempty (Some tz) = true) as ->; [|reflexivity].
    cbn. destruct (String.eqb tz "") eqn:E; [|reflexivity].
    apply String.eqb_eq in E. contradiction.
Qed.

End Settings.

(** The guild "g1" has a row with a channel, a multiplier and no time
    zone. *)
Lemma getSettings_merges_defaults_witness :
  fst (getSettings (Some "fallback") "UTC+0" (of_Z 1) "g1" two_guilds) =
  Normal (mkGuildSettings (Some "c1") "UTC+0" (Fin (3 # 2))).
Proof.
  refine (proj1 (proj2 (getSettings_merges_defaults
                          (Some "fallback") "UTC+0" (of_Z 1) "g1" two_guilds _))
                (mkSettingsRow "g1" (Some "c1") None (Some (Fin (3 # 2))))
                "c1" (Fin (3 # 2))
                eq_refl eq_refl eq_refl _ eq_refl eq_refl _).
  - intros b H. destruct H.
  - discriminate.
  - vm_compute. reflexivity.
Defined.

(* ================================================================== *)
(** * The periods *)
(* ================================================================== *)

Section Periods.

Import JsDate.

Lemma DayFromYear_mean (y : Z) :
  146097 * (y - 1970) - 607 < 400 * DayFromYear y <= 146097 * (y - 1970) + 593.
Proof. unfold DayFromYear. Z.div_mod_to_equations. lia. Qed.

(** [YearFromDay d] is the year of day [d]: its first day is not after [d]
    and the first day of the next year is. *)
Lemma YearFromDay_spec (d : Z) :
  DayFromYear (YearFromDay d) <= d < DayFromYear (YearFromDay d + 1).
Proof.
  unfold YearFromDay.
  set (q := d * 400 / 146097).
  assert (Hq : 146097 * q <= 400 * d < 146097 * (q + 1)).
  { unfold q. pose proof (Z.mul_div_le (d * 400) 146097).
    pose proof (Z.mul_succ_div_gt (d * 400) 146097). lia. }
  pose proof (DayFromYear_mean (1970 + q - 1)).
  pose proof (DayFromYear_mean (1970 + q + 1 + 1)).
  destruct (d <? DayFromYear (1970 + q)) eqn:E1.
  - apply Z.ltb_lt in E1. replace (1970 + q - 1 + 1) with (1970 + q) by lia. lia.
  - apply Z.ltb_ge in E1.
    destruct (DayFromYear (1970 + q + 1) <=? d) eqn:E2.
    + apply Z.leb_le in E2. lia.
    + apply Z.leb_gt in E2. lia.
Qed.

(** Consecutive years are a year apart. *)
Lemma DayFromYear_succ (y : Z) :
  DayFromYear (y + 1) = DayFromYear y + DaysInYear y.
Proof.
  unfold DayFromYear, DaysInYear.
  repeat match goal with
         | |- context [if ?b then _ else _] => destruct b eqn:?
         end;
    repeat match goal with
           | H : negb _ = true |- _ => apply negb_true_iff in H
           | H : negb _ = false |- _ => apply negb_false_iff in H
           | H : (_ =? _) = true |- _ => apply Z.eqb_eq in H
           | H : (_ =? _) = false |- _ => apply Z.eqb_neq in H
           end;
    Z.div_mod_to_equations; lia.
Qed.

(** The day within the year lies in the year. *)
Lemma DayWithinYear_range (t : Z) :
  0 <= DayWithinYear t < DaysInYear (YearFromTime t).
Proof.
  unfold DayWithinYear, YearFromTime.
  pose proof (YearFromDay_spec (Day t)) as H.
  rewrite DayFromYear_succ in H. lia.
Qed.

(** The date lies in 1..31. *)
Lemma DateFromTime_range (t : Z) : 1 <= DateFromTime t <= 31.
Proof.
  pose proof (DayWithinYear_range t) as H.
  unfold DateFromTime, MonthFromTime, InLeapYear, LeapYear in *.
  assert (L : DaysInYear (YearFromTime t) = 365 \/
              DaysInYear (YearFromTime t) = 366).
  { unfold DaysInYear.
    repeat match goal with
           | |- context [if ?b then _ else _] => destruct b
           end; auto. }
  unfold month_of.
  destruct L as [L | L]; rewrite L in *; cbn [month_start Z.sub Z.add Z.pos_sub
    Pos.pred_double Z.opp Pos.add Pos.succ Z.double Z.succ_double Z.pred_double];
    repeat match goal with
           | |- context [if ?b then _ else _] =>
               let E := fresh "E" in destruct b eqn:E;
               [apply Z.ltb_lt in E | apply Z.ltb_ge in E]
           end;
    cbn [month_start] in *; lia.
Qed.

Lemma month_of_range (leap dwy : Z) : 0 <= month_of leap dwy <= 11.
Proof.
  unfold month_of.
  repeat match goal with
         | |- context [if ?b then _ else _] => destruct b
         end; lia.
Qed.

(** The day number rebuilt from the year, month and date of a time is the
    day of that time. *)
Lemma MakeDay_of_date (t : Z) :
  MakeDay (YearFromTime t) (MonthFromTime t) (DateFromTime t) = Day t.
Proof.
  unfold MakeDay, DateFromTime, DayWithinYear.
  pose proof (month_of_range (InLeapYear t) (DayWithinYear t)) as R.
  fold (MonthFromTime t) in R.
  rewrite (Z.div_small (MonthFromTime t) 12) by lia.
  rewrite (Z.mod_small (MonthFromTime t) 12) by lia.
  rewrite Z.add_0_r. unfold InLeapYear. lia.
Qed.

Lemma YearFromDay_epoch (d : Z) : 0 <= d -> 1969 <= YearFromDay d.
Proof.
  intro H. unfold YearFromDay.
  assert (0 <= d * 400 / 146097) by (apply Z.div_pos; lia).
  repeat match goal with
         | |- context [if ?b then _ else _] => destruct b
         end; lia.
Qed.

Lemma time_fields (t : Z) :
  MakeDate (Day t)
    (MakeTime (HourFromTime t) (MinFromTime t) (SecFromTime t) (msFromTime t))
  = t.
Proof.
  unfold MakeDate, MakeTime, Day, HourFromTime, MinFromTime, SecFromTime,
    msFromTime, msPerDay, msPerHour, msPerMinute, msPerSecond.
  assert (Hd : t / 3600000 / 24 = t / 86400000)
    by (rewrite Z.div_div by lia; reflexivity).
  assert (Hh : t / 60000 / 60 = t / 3600000)
    by (rewrite Z.div_div by lia; reflexivity).
  assert (Hm : t / 1000 / 60 = t / 60000)
    by (rewrite Z.div_div by lia; reflexivity).
  rewrite (Z.mod_eq (t / 3600000) 24), (Z.mod_eq (t / 60000) 60),
    (Z.mod_eq (t / 1000) 60), (Z.mod_eq t 1000) by lia.
  rewrite Hd, Hh, Hm. ring.
Qed.

Lemma TimeClip_valid (t : Z) : valid_time t -> TimeClip t = Some t.
Proof.
  unfold valid_time, TimeClip. intro H.
  destruct (Z.abs t <=? maxTime) eqn:E; [reflexivity|].
  apply Z.leb_gt in E. lia.
Qed.

(** Lines 221-222 and 253-254 for a clock at or after the epoch: the
    midnight, in UTC, of the UTC calendar date of [now], moved back by the
    offset in hours (whenever that instant is one a Date can hold). *)
Lemma localMidnight_value (h now : Z) :
  0 <= now <= maxTime ->
  valid_time (Day now * msPerDay - h * msPerHour) ->
  localMidnight (Some h) now = Some (Day now * msPerDay - h * msPerHour).
Proof.
  intros Hnow Hcut. unfold localMidnight, UTC3, getUTCFullYear, getUTCMonth,
    getUTCDate, getUTCHours.
  assert (Hd : 0 <= Day now).
  { unfold Day, msPerDay. apply Z.div_pos; lia. }
  pose proof (YearFromDay_epoch (Day now) Hd) as Hy.
  fold (YearFromTime now) in Hy.
  replace ((0 <=? YearFromTime now) && (YearFromTime now <=? 99)) with false
    by (symmetry; apply andb_false_iff; right; apply Z.leb_gt; lia).
  rewrite MakeDay_of_date.
  assert (Hm : MakeDate (Day now) (MakeTime 0 0 0 0) = Day now * msPerDay).
  { unfold MakeDate, MakeTime. lia. }
  rewrite Hm.
  assert (Hle : Day now * msPerDay <= now).
  { unfold Day, msPerDay. pose proof (Z.mul_div_le now 86400000). lia. }
  rewrite TimeClip_valid by (unfold valid_time, maxTime, msPerDay in *; lia).
  unfold setUTCHours.
  assert (Hf : MakeDate (Day (Day now * msPerDay))
                 (MakeTime (HourFromTime (Day now * msPerDay) - h)
                    (MinFromTime (Day now * msPerDay))
                    (SecFromTime (Day now * msPerDay))
                    (msFromTime (Day now * msPerDay)))
               = Day now * msPerDay - h * msPerHour).
  { pose proof (time_fields (Day now * msPerDay)) as T.
    unfold MakeDate, MakeTime in *. lia. }
  rewrite Hf. apply TimeClip_valid, Hcut.
Qed.

Variable WEBHOOK_CHANNEL_ID : option string.
Variable DEFAULT_TZ : string.
Variable DEFAULT_LOSS : number.
Variable LocalTZA : Z -> bool -> Z.

(** C4: with the settings [getSettings] resolves for the guild and the
    offset [h] read from their time zone, the cutoff of "today" is, for a
    clock at or after the epoch, the midnight in UTC of the UTC calendar
    date of [now] moved back by [h] hours (whenever that instant is one a
    Date can hold): [/dailycount] queries from its ISO text, and so does
    [/egg] for the period "today", whose Date [since] is that instant. *)
Theorem today_cutoff_local_midnight
    (guildId : string) (h now since0 : Z) (s : guild_settings)
    (st st' : store) :
  getSettings WEBHOOK_CHANNEL_ID DEFAULT_TZ DEFAULT_LOSS guildId st
  = (Normal s, st') ->
  offsetHours (timezone_offset s) = Some h ->
  0 <= now <= maxTime ->
  valid_time (Day now * msPerDay - h * msPerHour) ->
  dailycount_sinceTs WEBHOOK_CHANNEL_ID DEFAULT_TZ DEFAULT_LOSS guildId now st
  = (toISOString (Some (Day now * msPerDay - h * msPerHour)), st') /\
  egg_since WEBHOOK_CHANNEL_ID DEFAULT_TZ DEFAULT_LOSS LocalTZA
    guildId "today" now since0 st
  = (Normal (Some (Day now * msPerDay - h * msPerHour)), st') /\
  egg_sinceTs WEBHOOK_CHANNEL_ID DEFAULT_TZ DEFAULT_LOSS LocalTZA
    guildId "today" now since0 st
  = (toISOString (Some (Day now * msPerDay - h * msPerHour)), st').
Proof.
  intros Hs Hh Hnow Hcut.
  pose proof (localMidnight_value h now Hnow Hcut) as Hlm.
  unfold dailycount_sinceTs, egg_sinceTs, egg_since.
  change (String.eqb "today" "today") with true. cbv iota.
  unfold mbind, lift, ret. rewrite Hs, Hh, Hlm.
  repeat split; reflexivity.
Qed.

Lemma setHours_minus_24 (now : Z) :
  0 <= now <= maxTime ->
  LocalTZA (LocalTime LocalTZA now - 24 * msPerHour) false = LocalTZA now true ->
  setHours LocalTZA (Some now) (Some (getHours LocalTZA now - 24))
  = Some (now - 24 * msPerHour).
Proof.
  intros Hnow Hz. unfold setHours, getHours.
  set (L := LocalTime LocalTZA now) in *.
  assert (Hf : MakeDate (Day L)
                 (MakeTime (HourFromTime L - 24) (MinFromTime L)
                    (SecFromTime L) (msFromTime L))
               = L - 24 * msPerHour).
  { pose proof (time_fields L) as T. unfold MakeDate, MakeTime in *. lia. }
  rewrite Hf. unfold UTC. rewrite Hz. unfold L, LocalTime.
  replace (now + LocalTZA now true - 24 * msPerHour - LocalTZA now true)
    with (now - 24 * msPerHour) by lia.
  apply TimeClip_valid. unfold valid_time, maxTime, msPerHour in *. lia.
Qed.

(** C5, as amended: a period token other than "today" that does not end in
    "d" resolves as "24h" does; the cutoff is [now] minus 24 hours when the
    offset of the host zone did not change over these 24 hours, and the
    resolution does not fail. *)
Theorem other_period_is_24h (guildId period : string) (now : Z) (st : store) :
  period <> "today" ->
  Str.endsWithChar "d" period = false ->
  0 <= now <= maxTime ->
  egg_sinceTs WEBHOOK_CHANNEL_ID DEFAULT_TZ DEFAULT_LOSS LocalTZA
    guildId period now now st
  = egg_sinceTs WEBHOOK_CHANNEL_ID DEFAULT_TZ DEFAULT_LOSS LocalTZA
      guildId "24h" now now st /\
  (LocalTZA (LocalTime LocalTZA now - 24 * msPerHour) false = LocalTZA now true ->
   exists ts,
     toISOString (Some (now - 24 * msPerHour)) = Normal ts /\
     egg_sinceTs WEBHOOK_CHANNEL_ID DEFAULT_TZ DEFAULT_LOSS LocalTZA
       guildId period now now st = (Normal ts, st)).
Proof.
  intros Ht Hd Hnow.
  assert (E : String.eqb period "today" = false).
  { destruct (String.eqb period "today") eqn:E; [|reflexivity].
    apply String.eqb_eq in E. contradiction. }
  assert (Hsame :
    egg_since WEBHOOK_CHANNEL_ID DEFAULT_TZ DEFAULT_LOSS LocalTZA
      guildId period now now
    = ret (setHours LocalTZA (Some now) (Some (getHours LocalTZA now - 24)))).
  { unfold egg_since. rewrite E, Hd.
    destruct (String.eqb period "24h"); reflexivity. }
  split.
  - unfold egg_sinceTs. rewrite Hsame. reflexivity.
  - intro Hz. eexists. split; [reflexivity|].
    unfold egg_sinceTs. rewrite Hsame.
    unfold mbind, ret, lift. rewrite (setHours_minus_24 now Hnow Hz).
    reflexivity.
Qed.

End Periods.

(** The example of the specification: for a guild in the zone UTC+8, at
    2024-01-15T03:00:00Z, both commands count from 2024-01-14T16:00:00Z. *)
Lemma today_cutoff_local_midnight_witness :
  JsDate.toISOString (Some 1705287600000) = Normal "2024-01-15T03:00:00.000Z" /\
  dailycount_sinceTs None "UTC+0" (of_Z 1) "g8" 1705287600000 utc8_guild
  = (Normal "2024-01-14T16:00:00.000Z", utc8_guild) /\
  egg_since None "UTC+0" (of_Z 1) (fixed_zone 0) "g8" "today"
    1705287600000 1705287600000 utc8_guild
  = (Normal (Some 1705248000000), utc8_guild) /\
  egg_sinceTs None "UTC+0" (of_Z 1) (fixed_zone 0) "g8" "today"
    1705287600000 1705287600000 utc8_guild
  = (Normal "2024-01-14T16:00:00.000Z", utc8_guild).
Proof.
  split; [reflexivity|].
  destruct (today_cutoff_local_midnight None "UTC+0" (of_Z 1) (fixed_zone 0)
              "g8" 8 1705287600000 1705287600000
              (mkGuildSettings (Some "c8") "UTC+8" (of_Z 1))
              utc8_guild utc8_guild)
    as [H1 [H2 H3]].
  - vm_compute. reflexivity.
  - reflexivity.
  - unfold JsDate.maxTime. lia.
  - vm_compute. split; discriminate.
  - rewrite H1, H2, H3. repeat split; reflexivity.
Defined.

(** "garbage" on a host in UTC at 2024-01-15T12:00:00Z. *)
Lemma other_period_is_24h_witness :
  egg_sinceTs None "UTC+0" (of_Z 1) (fixed_zone 0) "g1" "garbage"
    1705320000000 1705320000000 (empty_store [])
  = (Normal "2024-01-14T12:00:00.000Z", empty_store []).
Proof.
  destruct (proj2 (other_period_is_24h None "UTC+0" (of_Z 1) (fixed_zone 0)
                     "g1" "garbage" 1705320000000 (empty_store [])
                     ltac:(discriminate) eq_refl
                     ltac:(unfold JsDate.maxTime; lia))
                  eq_refl) as [ts [Hts Hrun]].
  rewrite Hrun. f_equal.
  vm_compute in Hts. injection Hts as <-. reflexivity.
Defined.

(** C5 as stated fails.  "2xd" is not "today", not "24h" and not an integer
    followed by "d", and resolves to two days before [now], not 24 hours.
    On a host whose clocks went forward by one hour during the last day,
    "garbage" resolves to 23 hours before [now]. *)
Lemma other_period_is_24h_counterexample :
  (is_integer_d "2xd" = false /\
   fst (egg_sinceTs None "UTC+0" (of_Z 1) (fixed_zone 0) "g1" "2xd"
          1705320000000 1705320000000 (empty_store []))
   = Normal "2024-01-13T12:00:00.000Z" /\
   fst (egg_sinceTs None "UTC+0" (of_Z 1) (fixed_zone 0) "g1" "24h"
          1705320000000 1705320000000 (empty_store []))
   = Normal "2024-01-14T12:00:00.000Z" /\
   fst (egg_sinceTs None "UTC+0" (of_Z 1) (fixed_zone 0) "g1" "2xd"
          1705320000000 1705320000000 (empty_store []))
   <> fst (egg_sinceTs None "UTC+0" (of_Z 1) (fixed_zone 0) "g1" "24h"
             1705320000000 1705320000000 (empty_store []))) /\
  (JsDate.toISOString (Some (43200000 - 24 * JsDate.msPerHour))
   = Normal "1969-12-31T12:00:00.000Z" /\
   fst (egg_sinceTs None "UTC+0" (of_Z 1) spring_forward "g1" "garbage"
          43200000 43200000 (empty_store []))
   = Normal "1969-12-31T13:00:00.000Z" /\
   fst (egg_sinceTs None "UTC+0" (of_Z 1) spring_forward "g1" "garbage"
          43200000 43200000 (empty_store []))
   <> JsDate.toISOString (Some (43200000 - 24 * JsDate.msPerHour))).
Proof.
  repeat split; vm_compute; try reflexivity; discriminate.
Qed.

(* ================================================================== *)
(** * The later strategies for the name *)
(* ================================================================== *)

(** The state after the embed, for a first embed whose fields, if it has
    a list of them, can be read. *)
Lemma embed_part_fold (body : JsVal) (e : option JsVal) (fs : list JsVal)
    (lvs : list (string * string)) (st : parsed) :
  first_embed body = Normal (Some e) ->
  block_fields body = Normal fs ->
  fields_view fs = Normal lvs ->
  embed_part body st =
    (if negb (truthy (eggName (fold_fields lvs st))) then
       title <- get e "title" ;;
       if truthy title
       then Normal (mkParsed title (weight (fold_fields lvs st)))
       else Normal (fold_fields lvs st)
     else Normal (fold_fields lvs st)).
Proof.
  intros He Hb Hv. unfold block_fields in Hb. unfold embed_part.
  rewrite He in *. cbn [bind] in *. unfold embed_fields.
  destruct (get e "fields") as [fields|err]; cbn [bind] in *;
    [|discriminate Hb].
  destruct fields as [[| | | |fs0|]|];
    try (injection Hb as <-; cbn in Hv; injection Hv as <-; reflexivity).
  injection Hb as ->.
  rewrite (fields_loop_view fs lvs st Hv). reflexivity.
Qed.

(** X1: When no field of the first embed has a label containing "from", the
    title of the embed, if it is truthy, is the name, exactly as written:
    no "egg" is removed from it and it is not trimmed. *)
Theorem title_is_name_verbatim
    (body : JsVal) (e : option JsVal) (fs : list JsVal)
    (lvs : list (string * string)) (t : JsVal) :
  first_embed body = Normal (Some e) ->
  block_fields body = Normal fs ->
  fields_view fs = Normal lvs ->
  last_match "from" lvs = None ->
  get e "title" = Normal (Some t) ->
  truthy (Some t) = true ->
  exists w, parseWebhookPayload body = Normal (t, w).
Proof.
  intros He Hb Hv Hlast Ht Htt.
  unfold parseWebhookPayload.
  rewrite (embed_part_fold body e fs lvs _ He Hb Hv).
  rewrite fold_fields_eggName, Hlast. cbn [eggName truthy negb].
  rewrite Ht. cbn [bind]. rewrite Htt. cbn [bind].
  unfold content_part. cbn [eggName]. rewrite Htt. cbn [negb bind].
  eexists. unfold finish. rewrite kg_part_eggName. cbn [eggName].
  rewrite (or_else_truthy _ _ Htt). reflexivity.
Qed.

Lemma title_is_name_verbatim_witness :
  exists w, parseWebhookPayload verbatim_title = Normal (JStr "Golden Egg ", w).
Proof.
  apply (title_is_name_verbatim verbatim_title
           (Some (JObj [("title", JStr "Golden Egg ");
                        ("fields", JArr [plain_field "Weight" "4.5 kg"])]))
           [plain_field "Weight" "4.5 kg"] [("weight", "4.5 kg")]
           (JStr "Golden Egg ")); reflexivity.
Defined.

(** X2: Without embeds, a payload with a text content is named by the capture
    of the content pattern, stripped and trimmed, or "Unknown" when the
    pattern does not match or the capture leaves nothing; its weight is the
    number found in the serialized payload, or 0. *)
Theorem content_only_payload (body : JsVal) (c : string) :
  first_embed body = Normal None ->
  get (Some body) "content" = Normal (Some (JStr c)) ->
  parseWebhookPayload body =
  Normal (JStr (match Re.hatched_from c with
                | Some m1 =>
                    if String.eqb (Str.trim (Str.strip_egg m1)) ""
                    then "Unknown" else Str.trim (Str.strip_egg m1)
                | None => "Unknown"
                end),
          match weightMatch body with
          | Some m1 => parseFloat m1
          | None => zero
          end).
Proof.
  intros He Hc. unfold parseWebhookPayload, embed_part.
  rewrite He. cbn [bind]. unfold content_part.
  cbn [eggName truthy negb]. rewrite Hc. cbn [bind].
  assert (Hkg : forall st, weight st = zero ->
            weight (kg_part body st) =
            match weightMatch body with
            | Some m1 => parseFloat m1
            | None => zero
            end).
  { intros st Hw. unfold kg_part. destruct (weightMatch body); [|exact Hw].
    rewrite Hw. reflexivity. }
  destruct (String.eqb c "") eqn:Ec.
  - apply String.eqb_eq in Ec. subst c. cbn [truthy String.eqb negb bind].
    unfold finish. rewrite kg_part_eggName, Hkg by reflexivity. reflexivity.
  - cbn [truthy]. rewrite Ec. cbn [negb as_string_receiver bind].
    destruct (Re.hatched_from c) as [m1|]; cbn [bind];
      unfold finish; rewrite kg_part_eggName, Hkg by reflexivity;
      cbn [eggName]; [|reflexivity].
    unfold or_else. cbn [truthy].
    destruct (String.eqb (Str.trim (Str.strip_egg m1)) ""); reflexivity.
Qed.

Lemma content_only_payload_witness :
  parseWebhookPayload content_only = Normal (JStr "Legendary", zero).
Proof.
  apply (content_only_payload content_only "Hatched From: Legendary Egg");
    reflexivity.
Defined.

(* ================================================================== *)
(** * What the interpreter never returns *)
(* ================================================================== *)

Lemma span_all (p : ascii -> bool) (s : string) :
  all_chars p (fst (Str.span p s)) = true.
Proof.
  induction s as [|c r IH]; [reflexivity|].
  cbn [Str.span]. destruct (p c) eqn:E; [|reflexivity].
  destruct (Str.span p r) as [a b]. cbn [fst all_chars] in *.
  rewrite E, IH. reflexivity.
Qed.

Lemma all_chars_app (p : ascii -> bool) (a b : string) :
  all_chars p a = true -> all_chars p b = true ->
  all_chars p (a ++ b) = true.
Proof.
  induction a as [|c a IH]; intros Ha Hb; [exact Hb|].
  cbn [all_chars append] in *. apply andb_true_iff in Ha as [Hc Ha].
  rewrite Hc, (IH Ha Hb). reflexivity.
Qed.

Lemma digit_value_range (c : ascii) :
  Str.is_digit c = true -> 0 <= digit_value c <= 9.
Proof.
  unfold Str.is_digit, Str.between, digit_value. intro H.
  apply andb_true_iff in H as [H1 H2].
  apply Z.leb_le in H1. apply Z.leb_le in H2. lia.
Qed.

Lemma digits_value_nonneg (s : string) :
  forall acc, 0 <= acc -> all_chars Str.is_digit s = true ->
              0 <= digits_value acc s.
Proof.
  induction s as [|c r IH]; intros acc Ha Hs; [exact Ha|].
  cbn [all_chars digits_value] in *. apply andb_true_iff in Hs as [Hc Hr].
  apply IH; [|exact Hr]. pose proof (digit_value_range c Hc). lia.
Qed.

Lemma scaled_positive (n d k : Z) :
  0 <= n -> 0 < d -> 0 <= fst (scaled n d k) /\ 0 < snd (scaled n d k).
Proof.
  intros Hn Hd. unfold scaled. destruct (0 <=? k) eqn:E; cbn [fst snd].
  - apply Z.leb_le in E. split; [|exact Hd].
    apply Z.mul_nonneg_nonneg; [exact Hn|]. apply Z.pow_nonneg. lia.
  - apply Z.leb_gt in E. split; [exact Hn|].
    apply Z.mul_pos_pos; [exact Hd|]. apply Z.pow_pos_nonneg; lia.
Qed.

Lemma round_b64_nonneg (n d : Z) : 0 < d -> nonneg_number (round_b64 n d).
Proof.
  intro Hd. unfold round_b64.
  destruct (n <=? 0) eqn:En.
  - cbn. apply Qle_refl.
  - apply Z.leb_gt in En.
    set (ex := Z.max (ilog2 n d - 52) (-1074)).
    pose proof (scaled_positive n d (- ex) (Z.lt_le_incl _ _ En) Hd) as [Ha Hb].
    destruct (scaled n d (- ex)) as [a b]. cbn [fst snd] in Ha, Hb.
    set (m' := if 2 * (a mod b) <? b then a / b
               else if b <? 2 * (a mod b) then a / b + 1
               else if Z.even (a / b) then a / b else a / b + 1).
    assert (Hm : 0 <= m').
    { assert (0 <= a / b) by (apply Z.div_pos; lia).
      unfold m'.
      repeat match goal with
             | |- context [if ?c then _ else _] => destruct c
             end; lia. }
    destruct ((971 <? ex) || ((ex =? 971) && (2 ^ 53 <=? m'))); [exact I|].
    pose proof (scaled_positive m' 1 ex Hm Z.lt_0_1) as [Hp Hq].
    destruct (scaled m' 1 ex) as [p q]. cbn [fst snd] in Hp, Hq.
    cbn [nonneg_number]. rewrite Qred_correct.
    unfold Qle. cbn [Qnum Qden]. lia.
Qed.

Lemma dec_Q_nonneg (m e : Z) : 0 <= m -> 0 <= Qnum (dec_Q m e).
Proof.
  intro Hm. unfold dec_Q. destruct (0 <=? e) eqn:E; cbn [Qnum inject_Z].
  - apply Z.leb_le in E. apply Z.mul_nonneg_nonneg; [exact Hm|].
    apply Z.pow_nonneg. lia.
  - exact Hm.
Qed.

Lemma round_Q_nonneg (q : Q) : 0 <= Qnum q -> nonneg_number (round_Q q).
Proof.
  intro H. unfold round_Q. apply Z.leb_le in H. rewrite H.
  apply round_b64_nonneg. reflexivity.
Qed.

Lemma digit_is_plain (c : ascii) :
  Str.is_digit c = true ->
  Str.is_space c = false /\ c <> "-"%char /\ c <> "+"%char /\ c <> "I"%char.
Proof.
  destruct c as [[] [] [] [] [] [] [] []]; vm_compute; intro H;
    try discriminate H; repeat split; congruence.
Qed.

(** Text that starts with a digit reads as a number that is neither NaN nor
    negative. *)
Lemma parseFloat_digit_start (c : ascii) (r : string) :
  Str.is_digit c = true -> nonneg_number (parseFloat (String c r)).
Proof.
  intro Hc. destruct (digit_is_plain c Hc) as [Hs [Hm [Hp HI]]].
  unfold parseFloat. cbn [Str.trimStart]. rewrite Hs.
  assert (Hsign : take_sign (String c r) = (false, String c r)).
  { unfold take_sign.
    destruct c as [[] [] [] [] [] [] [] []]; try reflexivity; congruence. }
  rewrite Hsign.
  assert (HInf : Str.startsWith "Infinity" (String c r) = false).
  { cbn [Str.startsWith]. destruct (Ascii.eqb "I" c) eqn:E; [|reflexivity].
    apply Ascii.eqb_eq in E. congruence. }
  rewrite HInf.
  pose proof (span_all Str.is_digit (String c r)) as Hip.
  cbn [Str.span] in *. rewrite Hc in *.
  destruct (Str.span Str.is_digit r) as [ip r1]. cbn [fst] in Hip.
  set (frac := match r1 with
               | String "." t => Str.span Str.is_digit t
               | _ => (EmptyString, r1)
               end).
  assert (Hfp : all_chars Str.is_digit (fst frac) = true).
  { unfold frac. destruct r1 as [|d t]; [reflexivity|].
    destruct (Ascii.eqb d ".") eqn:Ed.
    - apply Ascii.eqb_eq in Ed. subst d. apply span_all.
    - destruct d as [[] [] [] [] [] [] [] []]; try reflexivity;
        discriminate Ed. }
  destruct frac as [fp r2]. cbn [fst] in Hfp.
  apply round_Q_nonneg, dec_Q_nonneg.
  apply digits_value_nonneg; [lia|].
  apply (all_chars_app Str.is_digit (String c ip) fp Hip Hfp).
Qed.

Lemma number_at_digit (s tok rest : string) :
  Re.number_at s = Some (tok, rest) ->
  exists c t, tok = String c t /\ Str.is_digit c = true.
Proof.
  unfold Re.number_at. destruct s as [|c r]; cbn [Str.span]; [discriminate|].
  destruct (Str.is_digit c) eqn:Hc; [|discriminate].
  destruct (Str.span Str.is_digit r) as [ip r1].
  intro H.
  assert (exists t, tok = String c t) as [t ->]; [|eauto].
  destruct r1 as [|d t]; [injection H as <- _; eauto|].
  destruct (Ascii.eqb d ".") eqn:Ed.
  - apply Ascii.eqb_eq in Ed. subst d.
    destruct (Str.span Str.is_digit t) as [fp r'].
    destruct fp; injection H as <- _; cbn [append]; eauto.
  - destruct d as [[] [] [] [] [] [] [] []]; try discriminate Ed;
      injection H as <- _; eauto.
Qed.

Lemma first_number_digit (s tok : string) :
  Re.first_number s = Some tok ->
  exists c t, tok = String c t /\ Str.is_digit c = true.
Proof.
  induction s as [|c r IH]; cbn [Re.first_number].
  - destruct (Re.number_at "") as [[t0 r0]|] eqn:E; [|discriminate].
    intro H. injection H as <-. eapply number_at_digit, E.
  - destruct (Re.number_at (String c r)) as [[t0 r0]|] eqn:E; [|exact IH].
    intro H. injection H as <-. eapply number_at_digit, E.
Qed.

Lemma kg_match_digit (s tok : string) :
  Re.kg_match s = Some tok ->
  exists c t, tok = String c t /\ Str.is_digit c = true.
Proof.
  assert (Hat : forall u, Re.kg_at u = Some tok ->
            exists c t, tok = String c t /\ Str.is_digit c = true).
  { intros u. unfold Re.kg_at.
    destruct (Re.number_at u) as [[t0 r0]|] eqn:E; [|discriminate].
    destruct (Str.ci_strip_prefix "kg" _); [|discriminate].
    intro H. injection H as <-. eapply number_at_digit, E. }
  induction s as [|c r IH]; cbn [Re.kg_match].
  - destruct (Re.kg_at "") eqn:E; [|discriminate].
    intro H. injection H as <-. apply (Hat _ E).
  - destruct (Re.kg_at (String c r)) eqn:E; [|exact IH].
    intro H. injection H as <-. apply (Hat _ E).
Qed.

Lemma field_update_nonneg (st : parsed) (name val : string) :
  nonneg_number (weight st) -> nonneg_number (weight (field_update st name val)).
Proof.
  intro H. unfold field_update. cbn [weight].
  destruct (Str.includes "weight" name); [|exact H].
  destruct (Re.first_number val) as [tok|] eqn:E; [|exact H].
  destruct (first_number_digit val tok E) as [c [t [-> Hc]]].
  apply parseFloat_digit_start, Hc.
Qed.

Lemma fields_loop_nonneg (fs : list JsVal) :
  forall st st', nonneg_number (weight st) ->
                 fields_loop fs st = Normal st' ->
                 nonneg_number (weight st').
Proof.
  induction fs as [|f fs IH]; intros st st' Hst H.
  - injection H as <-. exact Hst.
  - cbn [fields_loop] in H. apply bind_inv in H as [st1 [H1 H]].
    unfold field_step in H1.
    apply bind_inv in H1 as [name [_ H1]].
    apply bind_inv in H1 as [val [_ H1]].
    injection H1 as <-.
    apply (IH _ _ (field_update_nonneg st name val Hst) H).
Qed.

Lemma embed_part_nonneg (body : JsVal) (st st' : parsed) :
  nonneg_number (weight st) -> embed_part body st = Normal st' ->
  nonneg_number (weight st').
Proof.
  intros Hst H. unfold embed_part in H.
  apply bind_inv in H as [[e|] [_ H]]; [|injection H as <-; exact Hst].
  unfold embed_fields in H.
  apply bind_inv in H as [fields [_ H]].
  apply bind_inv in H as [st1 [H1 H]].
  assert (Hst1 : nonneg_number (weight st1)).
  { destruct fields as [[| | | |fs|]|];
      try (injection H1 as <-; exact Hst).
    apply (fields_loop_nonneg fs st st1 Hst H1). }
  destruct (negb (truthy (eggName st1))); [|injection H as <-; exact Hst1].
  apply bind_inv in H as [title [_ H]].
  destruct (truthy title); injection H as <-; exact Hst1.
Qed.

Lemma content_part_same_weight (body : JsVal) (st st' : parsed) :
  content_part body st = Normal st' -> weight st' = weight st.
Proof.
  unfold content_part. intro H.
  destruct (negb (truthy (eggName st))); [|injection H as <-; reflexivity].
  apply bind_inv in H as [content [_ H]].
  destruct content as [c|]; [|injection H as <-; reflexivity].
  destruct (truthy (Some c)); [|injection H as <-; reflexivity].
  apply bind_inv in H as [text [_ H]].
  destruct (Re.hatched_from text); injection H as <-; reflexivity.
Qed.

(** X3: Whatever the payload, a result of [parseWebhookPayload] has a truthy
    name (never [null], the empty string, [false] or 0) and a weight that
    is neither NaN nor negative. *)
Theorem interpreted_name_and_weight (body : JsVal) (name : JsVal) (w : number) :
  parseWebhookPayload body = Normal (name, w) ->
  truthy (Some name) = true /\ nonneg_number w.
Proof.
  intro H. unfold parseWebhookPayload in H.
  apply bind_inv in H as [st1 [H1 H]].
  apply bind_inv in H as [st2 [H2 H]].
  injection H as Hn Hw. split.
  - unfold finish in Hn. cbn [fst] in Hn. rewrite kg_part_eggName in Hn.
    unfold or_else in Hn.
    destruct (eggName st2) as [n|]; [|subst name; reflexivity].
    destruct (truthy (Some n)) eqn:T; subst name; [exact T | reflexivity].
  - assert (Hst2 : nonneg_number (weight st2)).
    { rewrite (content_part_same_weight body st1 st2 H2).
      apply (embed_part_nonneg body (mkParsed None zero) st1); [|exact H1].
      cbn. apply Qle_refl. }
    subst w. unfold finish. cbn [snd]. unfold kg_part.
    destruct (weightMatch body) as [tok|] eqn:E; [|exact Hst2].
    destruct (negb (Num.truthy (weight st2))); [|exact Hst2].
    cbn [weight]. unfold weightMatch in E.
    destruct (kg_match_digit _ tok E) as [c [t [-> Hc]]].
    apply parseFloat_digit_start, Hc.
Qed.

Lemma interpreted_name_and_weight_witness :
  truthy (Some (JStr "Golden Egg ")) = true /\
  nonneg_number (Fin (9 # 2)).
Proof.
  apply (interpreted_name_and_weight verbatim_title).
  vm_compute. reflexivity.
Defined.

(* ================================================================== *)
(** * Payloads the interpreter rejects *)
(* ================================================================== *)

Section Rejections.

Variable WEBHOOK_CHANNEL_ID : option string.
Variable prepareValue : JsVal -> string.

Lemma webhook_rejects (payload : JsVal) (st : store) (err : error) :
  parseWebhookPayload payload = Throw err ->
  webhook WEBHOOK_CHANNEL_ID prepareValue payload st = (500, st).
Proof.
  intro H. unfold webhook, webhook_try, mbind, lift. rewrite H. reflexivity.
Qed.

(** X4: A payload whose [embeds] has a length but whose first element is
    [null] or missing makes [parseWebhookPayload] throw a TypeError: the
    delivery is answered 500 and leaves the store as it was, no query
    being issued. *)
Theorem null_embed_is_rejected (body : JsVal) (st : store) :
  first_embed body = Normal (Some None) \/
  first_embed body = Normal (Some (Some JNull)) ->
  parseWebhookPayload body = Throw TypeError /\
  webhook WEBHOOK_CHANNEL_ID prepareValue body st = (500, st).
Proof.
  intro H.
  assert (Hp : parseWebhookPayload body = Throw TypeError).
  { unfold parseWebhookPayload, embed_part.
    destruct H as [-> | ->]; reflexivity. }
  split; [exact Hp | apply (webhook_rejects body st TypeError Hp)].
Qed.

Lemma fields_loop_throws (fs : list JsVal) (f : JsVal) :
  In f fs ->
  (exists err, field_label f = Throw err) ->
  forall st, exists err, fields_loop fs st = Throw err.
Proof.
  intros Hin [err Hf].
  induction fs as [|g fs IH]; [destruct Hin|].
  intro st. cbn [fields_loop].
  destruct Hin as [-> | Hin].
  - unfold field_step. rewrite Hf. cbn [bind]. eauto.
  - destruct (field_step st g) as [st'|err']; cbn [bind]; [|eauto].
    apply (IH Hin).
Qed.

(** X5: A list of fields that holds [null], or a field whose [name] is truthy
    and not a string (a number, [true], a list, an object), makes
    [parseWebhookPayload] throw, whatever the other fields are: the
    delivery is answered 500 and leaves the store as it was. *)
Theorem unreadable_field_is_rejected
    (body : JsVal) (e : option JsVal) (fs : list JsVal) (f : JsVal)
    (st : store) :
  first_embed body = Normal (Some e) ->
  get e "fields" = Normal (Some (JArr fs)) ->
  In f fs ->
  (f = JNull \/
   exists v, get (Some f) "name" = Normal (Some v) /\
             truthy (Some v) = true /\ forall s, v <> JStr s) ->
  (exists err, parseWebhookPayload body = Throw err) /\
  webhook WEBHOOK_CHANNEL_ID prepareValue body st = (500, st).
Proof.
  intros He Hf Hin Hbad.
  assert (Hl : exists err, field_label f = Throw err).
  { destruct Hbad as [-> | [v [Hn [Ht Hv]]]].
    - exists TypeError. reflexivity.
    - exists TypeError. unfold field_label. rewrite Hn. cbn [bind].
      rewrite (or_else_truthy _ _ Ht).
      destruct v; try reflexivity. destruct (Hv s eq_refl). }
  assert (Hp : exists err, parseWebhookPayload body = Throw err).
  { unfold parseWebhookPayload, embed_part. rewrite He. cbn [bind].
    unfold embed_fields. rewrite Hf. cbn [bind].
    destruct (fields_loop_throws fs f Hin Hl (mkParsed None zero))
      as [err ->].
    exists err. reflexivity. }
  split; [exact Hp|].
  destruct Hp as [err Hp]. apply (webhook_rejects body st err Hp).
Qed.

End Rejections.

Lemma null_embed_is_rejected_witness :
  parseWebhookPayload null_embed = Throw TypeError /\
  webhook None text_param null_embed two_guilds = (500, two_guilds).
Proof.
  apply (null_embed_is_rejected None text_param null_embed two_guilds).
  right. reflexivity.
Defined.

Lemma unreadable_field_is_rejected_witness :
  (exists err, parseWebhookPayload numeric_label = Throw err) /\
  webhook None text_param numeric_label two_guilds = (500, two_guilds).
Proof.
  apply (unreadable_field_is_rejected None text_param numeric_label
           (Some (JObj [("fields",
              JArr [plain_field "Hatched From" "Rare Egg";
                    JObj [("name", JNum (of_Z 7)); ("value", JStr "x")]])]))
           [plain_field "Hatched From" "Rare Egg";
            JObj [("name", JNum (of_Z 7)); ("value", JStr "x")]]
           (JObj [("name", JNum (of_Z 7)); ("value", JStr "x")])
           two_guilds).
  - reflexivity.
  - reflexivity.
  - right. left. reflexivity.
  - right. exists (JNum (of_Z 7)). split; [reflexivity|].
    split; [reflexivity|]. intros s H. discriminate H.
Defined.

(* ================================================================== *)
(** * Trimmed names *)
(* ================================================================== *)

Lemma trimEnd_idem (s : string) : Str.trimEnd (Str.trimEnd s) = Str.trimEnd s.
Proof.
  induction s as [|c r IH]; [reflexivity|].
  cbn [Str.trimEnd]. destruct (Str.trimEnd r) as [|d r'] eqn:E.
  - destruct (Str.is_space c) eqn:Hc; [reflexivity|].
    cbn [Str.trimEnd]. rewrite Hc. reflexivity.
  - change (Str.trimEnd (String c (String d r')) = String c (String d r')).
    cbn [Str.trimEnd] in *. rewrite IH. reflexivity.
Qed.

Lemma trimEnd_head (c : ascii) (r : string) :
  Str.is_space c = false ->
  exists t, Str.trimEnd (String c r) = String c t.
Proof.
  intro Hc. cbn [Str.trimEnd]. destruct (Str.trimEnd r); [|eauto].
  rewrite Hc. eauto.
Qed.

Lemma trimStart_head (s : string) :
  Str.trimStart s = "" \/
  exists c r, Str.trimStart s = String c r /\ Str.is_space c = false.
Proof.
  induction s as [|c r IH]; [left; reflexivity|].
  cbn [Str.trimStart]. destruct (Str.is_space c) eqn:Hc; [exact IH|].
  right. eauto.
Qed.

(** Trimming is idempotent: what [trim] returns has no white space left at
    either end. *)
Lemma trim_idem (s : string) : Str.trim (Str.trim s) = Str.trim s.
Proof.
  unfold Str.trim.
  destruct (trimStart_head s) as [-> | [c [r [-> Hc]]]]; [reflexivity|].
  destruct (trimEnd_head c r Hc) as [t Ht]. rewrite Ht.
  cbn [Str.trimStart]. rewrite Hc. rewrite <- Ht. apply trimEnd_idem.
Qed.

Lemma fields_loop_trimmed (fs : list JsVal) :
  forall st st', name_trimmed st -> fields_loop fs st = Normal st' ->
                 name_trimmed st'.
Proof.
  induction fs as [|f fs IH]; intros st st' Hst H.
  - injection H as <-. exact Hst.
  - cbn [fields_loop] in H. apply bind_inv in H as [st1 [H1 H]].
    unfold field_step in H1.
    apply bind_inv in H1 as [name [_ H1]].
    apply bind_inv in H1 as [val [_ H1]].
    injection H1 as <-.
    refine (IH _ _ _ H).
    unfold name_trimmed, field_update. cbn [eggName].
    destruct (Str.includes "from" name); [|exact Hst].
    right. eexists. split; [reflexivity | apply trim_idem].
Qed.

(** X6: When the first embed has no usable title (or there is no embed), the
    name [parseWebhookPayload] returns is a string without white space at
    either end: the stripped and trimmed value of a field or of the
    content, or "Unknown". *)
Theorem name_is_trimmed (body : JsVal) (name : JsVal) (w : number) :
  no_title body ->
  parseWebhookPayload body = Normal (name, w) ->
  exists n, name = JStr n /\ Str.trim n = n.
Proof.
  intros Hnt H. unfold parseWebhookPayload in H.
  apply bind_inv in H as [st1 [H1 H]].
  apply bind_inv in H as [st2 [H2 H]].
  injection H as Hn _.
  assert (Hst1 : name_trimmed st1).
  { unfold embed_part in H1.
    apply bind_inv in H1 as [[e|] [He H1]];
      [|injection H1 as <-; left; reflexivity].
    destruct (Hnt e He) as [t [Ht Hf]].
    unfold embed_fields in H1.
    apply bind_inv in H1 as [fields [_ H1]].
    apply bind_inv in H1 as [st0 [H0 H1]].
    assert (Hst0 : name_trimmed st0).
    { destruct fields as [[| | | |fs|]|];
        try (injection H0 as <-; left; reflexivity).
      refine (fields_loop_trimmed fs _ st0 _ H0). left. reflexivity. }
    destruct (negb (truthy (eggName st0))); [|injection H1 as <-; exact Hst0].
    rewrite Ht in H1. cbn [bind] in H1. rewrite Hf in H1.
    injection H1 as <-. exact Hst0. }
  assert (Hst2 : name_trimmed st2).
  { unfold content_part in H2.
    destruct (negb (truthy (eggName st1))); [|injection H2 as <-; exact Hst1].
    apply bind_inv in H2 as [content [_ H2]].
    destruct content as [c|]; [|injection H2 as <-; exact Hst1].
    destruct (truthy (Some c)); [|injection H2 as <-; exact Hst1].
    apply bind_inv in H2 as [text [_ H2]].
    destruct (Re.hatched_from text); injection H2 as <-; [|exact Hst1].
    right. eexists. split; [reflexivity | apply trim_idem]. }
  unfold finish in Hn. cbn [fst] in Hn. rewrite kg_part_eggName in Hn.
  destruct Hst2 as [E | [n [E Hnn]]]; rewrite E in Hn.
  - exists "Unknown". subst name. split; reflexivity.
  - unfold or_else in Hn. destruct (truthy (Some (JStr n))); subst name.
    + exists n. split; [reflexivity | exact Hnn].
    + exists "Unknown". split; reflexivity.
Qed.

Lemma name_is_trimmed_witness :
  exists n, JStr "Legendary" = JStr n /\ Str.trim n = n.
Proof.
  apply (name_is_trimmed content_only (JStr "Legendary") zero).
  - intros e H. discriminate H.
  - reflexivity.
Defined.

(* ================================================================== *)
(** * What a delivery does to the store *)
(* ================================================================== *)

Section Deliveries.

Variable WEBHOOK_CHANNEL_ID : option string.
Variable prepareValue : JsVal -> string.


(** A query that only reads leaves the tables; it fails or answers. *)
Lemma query_read {A} (f : store -> A) (st : store) :
  exists st',
    same_tables st st' /\
    faults st' = List.tl (faults st) /\
    ((query (fun s => (f s, s)) st = (Throw StorageError, st') /\
      List.hd false (faults st) = true) \/
     (query (fun s => (f s, s)) st = (Normal (f st), st') /\
      List.hd false (faults st) = false)).
Proof.
  exists (mkStore (settings st) (hatch_logs st) (List.tl (faults st))).
  unfold query, same_tables. cbn [settings hatch_logs faults].
  split; [split; reflexivity|]. split; [reflexivity|].
  destruct (faults st) as [|[] fs]; cbn [List.hd List.tl]; auto.
Qed.





Lemma nonempty_Some (s : string) : s <> "" -> nonempty (Some s) = true.
Proof.
  intro H. cbn. destruct (String.eqb s "") eqn:E; [|reflexivity].
  apply String.eqb_eq in E. contradiction.
Qed.



End Deliveries.



(* ================================================================== *)
(** * Writing and reading the settings *)
(* ================================================================== *)

Section SettingsWrites.

Variable WEBHOOK_CHANNEL_ID : option string.
Variable DEFAULT_TZ : string.
Variable DEFAULT_LOSS : number.
Variable prepareValue : JsVal -> string.

Lemma upsert_keys (r : settings_row) (rows : list settings_row) (k : string) :
  In k (List.map s_guild_id (upsert r rows)) ->
  k = s_guild_id r \/ In k (List.map s_guild_id rows).
Proof.
  induction rows as [|x rows IH]; cbn [upsert List.map In].
  - intros [H | []]. left. symmetry. exact H.
  - destruct (String.eqb (s_guild_id x) (s_guild_id r)) eqn:E;
      cbn [List.map In].
    + intros [H | H]; [left; symmetry; exact H | right; right; exact H].
    + intros [H | H]; [right; left; exact H|].
      destruct (IH H); [left | right; right]; assumption.
Qed.

Lemma upsert_NoDup (r : settings_row) (rows : list settings_row) :
  NoDup (List.map s_guild_id rows) ->
  NoDup (List.map s_guild_id (upsert r rows)).
Proof.
  induction rows as [|x rows IH]; cbn [upsert List.map]; intro H.
  - constructor; [intros [] | constructor].
  - inversion H as [|k ks Hnotin Hrest]; subst.
    destruct (String.eqb (s_guild_id x) (s_guild_id r)) eqn:E;
      cbn [List.map].
    + apply String.eqb_eq in E. rewrite <- E. exact H.
    + apply String.eqb_neq in E. constructor; [|apply IH, Hrest].
      intro Hin. destruct (upsert_keys r rows _ Hin) as [Hk | Hk];
        [apply E, Hk | apply Hnotin, Hk].
Qed.

Lemma find_upsert_same (r : settings_row) (rows : list settings_row) :
  List.find (fun x => String.eqb (s_guild_id x) (s_guild_id r)) (upsert r rows)
  = Some r.
Proof.
  induction rows as [|x rows IH]; cbn [upsert List.find].
  - rewrite String.eqb_refl. reflexivity.
  - destruct (String.eqb (s_guild_id x) (s_guild_id r)) eqn:E;
      cbn [List.find].
    + rewrite String.eqb_refl. reflexivity.
    + rewrite E. exact IH.
Qed.

Lemma find_upsert_other (r : settings_row) (rows : list settings_row)
    (g : string) :
  g <> s_guild_id r ->
  List.find (fun x => String.eqb (s_guild_id x) g) (upsert r rows)
  = List.find (fun x => String.eqb (s_guild_id x) g) rows.
Proof.
  intro Hg.
  assert (Hr : String.eqb (s_guild_id r) g = false).
  { apply String.eqb_neq. intro H. apply Hg. symmetry. exact H. }
  induction rows as [|x rows IH]; cbn [upsert List.find].
  - rewrite Hr. reflexivity.
  - destruct (String.eqb (s_guild_id x) (s_guild_id r)) eqn:E;
      cbn [List.find].
    + apply String.eqb_eq in E. rewrite E, Hr. reflexivity.
    + destruct (String.eqb (s_guild_id x) g); [reflexivity | exact IH].
Qed.

Lemma saveSettings_run (g c tz : string) (l : number) (st : store) :
  no_fault 1 st ->
  saveSettings g c tz l st =
  (Normal tt,
   mkStore (upsert (mkSettingsRow g (Some c) (Some tz) (Some l)) (settings st))
           (hatch_logs st) (List.tl (faults st))).
Proof.
  intro Hf. unfold saveSettings, query. unfold no_fault in Hf.
  destruct (faults st) as [|b fs] eqn:E; [reflexivity|].
  assert (b = false) by (apply Hf; cbn; tauto). subst b. reflexivity.
Qed.

Lemma no_fault_tl (n : nat) (st : store) (ss : list settings_row)
    (hl : list hatch_log) :
  no_fault (S n) st -> no_fault n (mkStore ss hl (List.tl (faults st))).
Proof.
  unfold no_fault. cbn [faults]. intros H b Hb.
  destruct (faults st) as [|b0 fs]; cbn [List.tl] in Hb.
  - destruct n; destruct Hb.
  - apply H. cbn [List.firstn In]. right. exact Hb.
Qed.

(** X10: The channel and the time zone [saveSettings] writes are what
    [getSettings] reads back, whatever was stored for the guild before,
    when they are not empty and neither query fails.  Nothing is said of
    the multiplier: it comes back through a REAL column, which keeps it in
    single precision. *)
Theorem saved_settings_are_read
    (guildId channelId timezone : string) (loss : number) (st : store) :
  no_fault 2 st ->
  channelId <> "" ->
  timezone <> "" ->
  exists s,
    fst (getSettings WEBHOOK_CHANNEL_ID DEFAULT_TZ DEFAULT_LOSS guildId
           (snd (saveSettings guildId channelId timezone loss st)))
    = Normal s /\
    webhook_channel_id s = Some channelId /\
    timezone_offset s = timezone.
Proof.
  intros Hf Hc Htz.
  assert (Hf1 : no_fault 1 st).
  { intros b Hb. apply Hf. destruct (faults st) as [|b0 fs]; [destruct Hb|].
    cbn [List.firstn In] in *. destruct Hb as [Hb | []]. left. exact Hb. }
  rewrite (saveSettings_run guildId channelId timezone loss st Hf1).
  cbn [snd].
  rewrite getSettings_run by (apply no_fault_tl, Hf).
  unfold stored_row. cbn [settings].
  rewrite (find_upsert_same
             (mkSettingsRow guildId (Some channelId) (Some timezone) (Some loss))).
  cbn [s_webhook_channel_id s_timezone_offset s_loss_multiplier].
  rewrite (nonempty_Some _ Hc), (nonempty_Some _ Htz).
  eexists. split; [reflexivity|]. split; reflexivity.
Qed.

(** X11: Saving the settings of a guild leaves the event log and the row of
    every other guild as they were, whether the query succeeds or not. *)
Theorem saving_leaves_other_guilds
    (guildId other channelId timezone : string) (loss : number) (st : store) :
  other <> guildId ->
  stored_row other (snd (saveSettings guildId channelId timezone loss st))
  = stored_row other st /\
  hatch_logs (snd (saveSettings guildId channelId timezone loss st))
  = hatch_logs st.
Proof.
  intro Hne. unfold saveSettings, query, stored_row.
  destruct (faults st) as [|[] fs]; cbn [snd settings hatch_logs];
    split; try reflexivity;
    apply (find_upsert_other
             (mkSettingsRow guildId (Some channelId) (Some timezone) (Some loss)));
    exact Hne.
Qed.

Lemma keeps_settings_ret {A} (a : A) : keeps_settings (ret a).
Proof. intro st. reflexivity. Qed.

Lemma keeps_settings_lift {A} (c : completion A) : keeps_settings (lift c).
Proof. intro st. reflexivity. Qed.

Lemma keeps_settings_mbind {A B} (m : M A) (k : A -> M B) :
  keeps_settings m -> (forall a, keeps_settings (k a)) ->
  keeps_settings (mbind m k).
Proof.
  intros Hm Hk st. unfold mbind. specialize (Hm st).
  destruct (m st) as [[a|e] st']; cbn [snd] in *.
  - rewrite Hk. exact Hm.
  - exact Hm.
Qed.

Lemma keeps_settings_query {A} (run : store -> A * store) :
  (forall st, settings (snd (run st)) = settings st) ->
  keeps_settings (query run).
Proof.
  intros Hrun st. unfold query.
  destruct (faults st) as [|[] fs]; cbn [snd settings]; try reflexivity;
    specialize (Hrun st); destruct (run st) as [a st']; exact Hrun.
Qed.

Lemma keeps_settings_webhook (payload : JsVal) (st : store) :
  settings (snd (webhook WEBHOOK_CHANNEL_ID prepareValue payload st))
  = settings st.
Proof.
  assert (K : keeps_settings
                (webhook_try WEBHOOK_CHANNEL_ID prepareValue payload)).
  { unfold webhook_try.
    apply keeps_settings_mbind; [apply keeps_settings_lift|]. intros [name w].
    apply keeps_settings_mbind; [apply keeps_settings_lift|]. intro cid.
    apply keeps_settings_mbind;
      [apply keeps_settings_query; reflexivity|]. intro sres.
    apply keeps_settings_mbind.
    - destruct (negb (nonempty _)); [|apply keeps_settings_ret].
      apply keeps_settings_mbind;
        [apply keeps_settings_query; reflexivity|].
      intros [|r rest]; apply keeps_settings_ret.
    - assert (Hins : forall g, keeps_settings
                (insertLog g name w (classifyRarity w))).
      { intro g. apply keeps_settings_query. reflexivity. }
      intros [g|]; [|apply Hins].
      destruct (negb (nonempty (Some g))); apply Hins. }
  specialize (K st). unfold webhook.
  destruct (webhook_try WEBHOOK_CHANNEL_ID prepareValue payload st)
    as [[u|e] st']; exact K.
Qed.

(** X12: In every state the store can reach, [settings] holds at most one row
    for a guild. *)
Theorem one_settings_row_per_guild (st : store) :
  reachable WEBHOOK_CHANNEL_ID prepareValue st ->
  NoDup (List.map s_guild_id (settings st)).
Proof.
  intro R.
  induction R as [fs | st payload _ IH | st g c tz l _ IH | st fs _ IH].
  - constructor.
  - rewrite keeps_settings_webhook. exact IH.
  - unfold saveSettings, query.
    destruct (faults st) as [|[] fs]; cbn [snd settings]; try exact IH;
      apply upsert_NoDup, IH.
  - exact IH.
Qed.

End SettingsWrites.

Lemma saved_settings_are_read_witness :
  exists s,
    fst (getSettings None "UTC+0" (of_Z 1) "g1" resaved) = Normal s /\
    webhook_channel_id s = Some "c7" /\
    timezone_offset s = "UTC+2".
Proof.
  apply (saved_settings_are_read None "UTC+0" (of_Z 1)
           "g1" "c7" "UTC+2" (Fin (5 # 2)) two_guilds).
  - intros b H. destruct H.
  - discriminate.
  - discriminate.
Defined.

Lemma saving_leaves_other_guilds_witness :
  stored_row "g0" resaved = stored_row "g0" two_guilds /\
  hatch_logs resaved = hatch_logs two_guilds.
Proof.
  apply (saving_leaves_other_guilds "g1" "g0" "c7" "UTC+2" (Fin (5 # 2))
           two_guilds).
  discriminate.
Defined.

Lemma one_settings_row_per_guild_witness :
  NoDup (List.map s_guild_id
           (settings
              (snd (saveSettings "g1" "c2" "UTC+1" (of_Z 3)
                 (snd (saveSettings "g1" "c1" "UTC+8" (of_Z 1)
                    (empty_store []))))))).
Proof.
  apply (one_settings_row_per_guild None text_param).
  apply reach_setup, reach_setup, reach_init.
Defined.

(* ================================================================== *)
(** * Day periods and offsets *)
(* ================================================================== *)

Section DayPeriods.

Import JsDate.

Variable WEBHOOK_CHANNEL_ID : option string.
Variable DEFAULT_TZ : string.
Variable DEFAULT_LOSS : number.
Variable LocalTZA : Z -> bool -> Z.

Lemma ends_in_d_not_today (period : string) :
  Str.endsWithChar "d" period = true -> String.eqb period "today" = false.
Proof.
  intro H. destruct (String.eqb period "today") eqn:E; [|reflexivity].
  apply String.eqb_eq in E. subst period. discriminate H.
Qed.

Lemma MakeDay_shift (y m d n : Z) : MakeDay y m (d - n) = MakeDay y m d - n.
Proof. unfold MakeDay. lia. Qed.

Lemma setDate_minus_days (now n : Z) :
  LocalTZA (LocalTime LocalTZA now - n * msPerDay) false = LocalTZA now true ->
  valid_time (now - n * msPerDay) ->
  setDate LocalTZA (Some now) (Some (getDate LocalTZA now - n))
  = Some (now - n * msPerDay).
Proof.
  intros Hz Hv. unfold setDate, getDate.
  set (L := LocalTime LocalTZA now) in *.
  rewrite MakeDay_shift, MakeDay_of_date.
  assert (Hd : MakeDate (Day L - n) (TimeWithinDay L) = L - n * msPerDay).
  { unfold MakeDate, Day, TimeWithinDay.
    pose proof (Z.div_mod L msPerDay ltac:(unfold msPerDay; lia)). lia. }
  rewrite Hd. unfold UTC. rewrite Hz. unfold L, LocalTime.
  replace (now + LocalTZA now true - n * msPerDay - LocalTZA now true)
    with (now - n * msPerDay) by lia.
  apply TimeClip_valid, Hv.
Qed.

(** X13: A period ending in "d" whose text [parseInt] reads as the integer [n]
    resolves to [now] minus [n] days of 24 hours, when the two readings of
    the clock are the same instant, the offset of the host zone is the
    same [n] days earlier and that instant is one a Date can hold; the
    store is not consulted. *)
Theorem day_period_cutoff (guildId period : string) (n now : Z) (st : store) :
  Str.endsWithChar "d" period = true ->
  parseInt period None = Some n ->
  LocalTZA (LocalTime LocalTZA now - n * msPerDay) false = LocalTZA now true ->
  valid_time (now - n * msPerDay) ->
  egg_since WEBHOOK_CHANNEL_ID DEFAULT_TZ DEFAULT_LOSS LocalTZA
    guildId period now now st
  = (Normal (Some (now - n * msPerDay)), st).
Proof.
  intros Hd Hn Hz Hv. unfold egg_since.
  rewrite (ends_in_d_not_today period Hd), Hd, Hn.
  unfold ret. rewrite (setDate_minus_days now n Hz Hv). reflexivity.
Qed.

Lemma parseInt_no_digit (c : ascii) (r : string) :
  Str.is_digit c = false -> Str.is_space c = false ->
  c <> "+"%char -> c <> "-"%char ->
  parseInt (String c r) None = None.
Proof.
  intros Hd Hs Hp Hm. unfold parseInt. cbn [Str.trimStart]. rewrite Hs.
  destruct c as [[] [] [] [] [] [] [] []];
    try discriminate Hd; try discriminate Hs; try congruence; reflexivity.
Qed.

(** X14: A period ending in "d" that starts with a character other than a
    digit, a sign or white space (such as "bad" or "d" itself) makes
    [parseInt] return NaN: the Date is invalid and [toISOString] throws a
    RangeError before any count is queried. *)
Theorem day_period_without_number_throws
    (guildId : string) (c : ascii) (r : string) (now since0 : Z) (st : store) :
  Str.endsWithChar "d" (String c r) = true ->
  Str.is_digit c = false ->
  Str.is_space c = false ->
  c <> "+"%char -> c <> "-"%char ->
  egg_sinceTs WEBHOOK_CHANNEL_ID DEFAULT_TZ DEFAULT_LOSS LocalTZA
    guildId (String c r) now since0 st
  = (Throw RangeError, st).
Proof.
  intros He Hd Hs Hp Hm. unfold egg_sinceTs, egg_since.
  rewrite (ends_in_d_not_today _ He), He.
  rewrite (parseInt_no_digit c r Hd Hs Hp Hm). reflexivity.
Qed.

End DayPeriods.

Lemma day_period_cutoff_witness :
  egg_since None "UTC+0" (of_Z 1) (fixed_zone 0) "g1" "3d"
    1705320000000 1705320000000 (empty_store [])
  = (Normal (Some 1705060800000), empty_store []) /\
  JsDate.toISOString (Some 1705320000000) = Normal "2024-01-15T12:00:00.000Z" /\
  JsDate.toISOString (Some 1705060800000) = Normal "2024-01-12T12:00:00.000Z".
Proof.
  split; [|split; reflexivity].
  apply (day_period_cutoff None "UTC+0" (of_Z 1) (fixed_zone 0)
           "g1" "3d" 3 1705320000000 (empty_store [])).
  - reflexivity.
  - reflexivity.
  - reflexivity.
  - vm_compute. split; discriminate.
Defined.

Lemma day_period_without_number_throws_witness :
  egg_sinceTs None "UTC+0" (of_Z 1) (fixed_zone 0) "g1" "bad"
    1705320000000 1705320000000 (empty_store [])
  = (Throw RangeError, empty_store []).
Proof.
  apply (day_period_without_number_throws None "UTC+0" (of_Z 1) (fixed_zone 0)
           "g1" "b" "ad" 1705320000000 1705320000000 (empty_store []));
    try reflexivity; discriminate.
Defined.

(* ================================================================== *)
(** * The offset of a zone *)
(* ================================================================== *)

Lemma radix_digit_decimal (c : ascii) :
  Str.is_digit c = true ->
  radix_digit c = Some (digit_value c) /\ 0 <= digit_value c <= 9.
Proof.
  intro H. unfold radix_digit. rewrite H. split; [reflexivity|].
  apply digit_value_range, H.
Qed.

Lemma utc_at_shape (s g : string) :
  Re.utc_at s = Some g ->
  exists sg d1,
    (sg = "+"%char \/ sg = "-"%char) /\ Str.is_digit d1 = true /\
    (g = String sg (String d1 "") \/
     exists d2, Str.is_digit d2 = true /\ g = String sg (String d1 (String d2 ""))).
Proof.
  unfold Re.utc_at.
  destruct (Str.ci_strip_prefix "UTC" s) as [[|sg [|d1 r]]|]; try discriminate.
  destruct ((Ascii.eqb sg "+" || Ascii.eqb sg "-") && Str.is_digit d1) eqn:E;
    [|discriminate].
  apply andb_true_iff in E as [Hsg Hd1].
  assert (Hs : sg = "+"%char \/ sg = "-"%char).
  { apply orb_true_iff in Hsg as [H | H]; apply Ascii.eqb_eq in H; auto. }
  intro H. exists sg, d1. split; [exact Hs|]. split; [exact Hd1|].
  destruct r as [|d2 r']; [injection H as <-; auto|].
  destruct (Str.is_digit d2) eqn:Hd2; injection H as <-; eauto.
Qed.

Lemma parseInt_signed_digits (sg d1 : ascii) (tail : string) :
  (sg = "+"%char \/ sg = "-"%char) -> Str.is_digit d1 = true ->
  (tail = "" \/ exists d2, Str.is_digit d2 = true /\ tail = String d2 "") ->
  exists h, parseInt (String sg (String d1 tail)) (Some 10) = Some h /\
            -99 <= h <= 99.
Proof.
  intros Hsg Hd1 Htail.
  destruct (radix_digit_decimal d1 Hd1) as [R1 B1].
  assert (Hrun : exists v, radix_digits 10 None (String d1 tail) = Some v /\
                           0 <= v <= 99).
  { cbn [radix_digits]. rewrite R1.
    assert ((digit_value d1 <? 10) = true) as -> by (apply Z.ltb_lt; lia).
    destruct Htail as [-> | [d2 [Hd2 ->]]].
    - cbn [radix_digits]. eexists. split; [reflexivity|]. lia.
    - destruct (radix_digit_decimal d2 Hd2) as [R2 B2].
      cbn [radix_digits]. rewrite R2.
      assert ((digit_value d2 <? 10) = true) as -> by (apply Z.ltb_lt; lia).
      eexists. split; [reflexivity|]. lia. }
  destruct Hrun as [v [Hv Bv]].
  assert (Hskip : forall neg : bool,
            (let '(r, s2) :=
               match String d1 tail with
               | String "0" (String x rest) =>
                   if false && Str.ci_eqb "x" x
                   then (16, rest) else (10, String d1 tail)
               | _ => (10, String d1 tail)
               end in
             match radix_digits r None s2 with
             | Some v => Some (if neg then - v else v)
             | None => None
             end) = Some (if neg then - v else v)).
  { intro neg.
    assert (E : match String d1 tail with
                | String "0" (String x rest) =>
                    if false && Str.ci_eqb "x" x
                    then (16, rest) else (10, String d1 tail)
                | _ => (10, String d1 tail)
                end = (10, String d1 tail)).
    { destruct d1 as [[] [] [] [] [] [] [] []]; try reflexivity.
      destruct tail; reflexivity. }
    rewrite E, Hv. reflexivity. }
  destruct Hsg as [-> | ->].
  - exists v. split; [|lia]. exact (Hskip false).
  - exists (- v). split; [|lia]. exact (Hskip true).
Qed.

(** X15: The offset read from the text of a zone is always an integer from -99
    to 99, never NaN; text without "UTC", a sign and a digit gives 0. *)
Theorem offsetHours_bounds (tz : string) :
  (exists h, offsetHours tz = Some h /\ -99 <= h <= 99) /\
  (Re.utc_offset tz = None -> offsetHours tz = Some 0).
Proof.
  unfold offsetHours. split.
  - destruct (Re.utc_offset tz) as [g|] eqn:E;
      [|exists 0; split; [reflexivity | lia]].
    assert (Hshape : exists s, Re.utc_at s = Some g).
    { clear - E. induction tz as [|c r IH]; cbn [Re.utc_offset] in E.
      - destruct (Re.utc_at "") eqn:U; [|discriminate].
        injection E as <-. eauto.
      - destruct (Re.utc_at (String c r)) eqn:U; [|exact (IH E)].
        injection E as <-. eauto. }
    destruct Hshape as [s Hs].
    destruct (utc_at_shape s g Hs) as [sg [d1 [Hsg [Hd1 Hg]]]].
    destruct Hg as [-> | [d2 [Hd2 ->]]];
      apply parseInt_signed_digits; eauto.
  - intros ->. reflexivity.
Qed.

Lemma offsetHours_bounds_witness : offsetHours "Europe/Paris" = Some 0.
Proof.
  apply (proj2 (offsetHours_bounds "Europe/Paris")). reflexivity.
Defined.

(* ================================================================== *)
(** * The window of "today" *)
(* ================================================================== *)

Section TodayWindow.

Import JsDate.

(** X16: The window of "today" is not the local calendar day: for an offset of
    [h] hours the cutoff lies at least [h] and less than [h + 24] hours
    before [now].  West of UTC ([h < 0]) the cutoff is after [now] during
    the first [-h] hours of the UTC day; east of UTC the window can exceed
    24 hours. *)
Theorem today_window (h now : Z) :
  0 <= now <= maxTime ->
  valid_time (Day now * msPerDay - h * msPerHour) ->
  exists cutoff,
    localMidnight (Some h) now = Some cutoff /\
    h * msPerHour <= now - cutoff < (h + 24) * msPerHour.
Proof.
  intros Hnow Hcut. eexists. split; [apply localMidnight_value; assumption|].
  unfold Day, msPerDay, msPerHour.
  pose proof (Z.div_mod now 86400000 ltac:(lia)).
  pose proof (Z.mod_pos_bound now 86400000 ltac:(lia)). lia.
Qed.

End TodayWindow.

(** At 2024-01-15T03:00:00Z with the zone UTC-5 the cutoff is
    2024-01-15T05:00:00Z, two hours after [now]. *)
Lemma today_window_witness :
  exists cutoff,
    localMidnight (Some (-5)) 1705287600000 = Some cutoff /\
    -5 * JsDate.msPerHour <= 1705287600000 - cutoff < (-5 + 24) * JsDate.msPerHour.
Proof.
  apply (today_window (-5) 1705287600000).
  - unfold JsDate.maxTime. lia.
  - vm_compute. split; discriminate.
Defined.

(* ================================================================== *)
(** * Rows the program writes *)
(* ================================================================== *)

Section WrittenRows.

Variable WEBHOOK_CHANNEL_ID : option string.
Variable prepareValue : JsVal -> string.

Lemma upsert_Forall (P : settings_row -> Prop) (r : settings_row)
    (rows : list settings_row) :
  P r -> Forall P rows -> Forall P (upsert r rows).
Proof.
  intros Hr H. induction H as [|x rows Hx Hrows IH]; cbn [upsert].
  - constructor; [exact Hr | constructor].
  - destruct (String.eqb (s_guild_id x) (s_guild_id r)).
    + constructor; assumption.
    + constructor; assumption.
Qed.

(** X17: In every state the store can reach, no row of [settings] holds NULL:
    the only statement that writes the table, the one of [saveSettings],
    sets the channel, the time zone and the multiplier of the row it
    inserts or updates. *)
Theorem written_settings_have_no_null (st : store) :
  reachable WEBHOOK_CHANNEL_ID prepareValue st ->
  Forall (fun r => s_webhook_channel_id r <> None /\
                   s_timezone_offset r <> None /\
                   s_loss_multiplier r <> None) (settings st).
Proof.
  intro R.
  induction R as [fs | st payload _ IH | st g c tz l _ IH | st fs _ IH].
  - constructor.
  - rewrite keeps_settings_webhook. exact IH.
  - unfold saveSettings, query.
    destruct (faults st) as [|[] fs]; cbn [snd settings]; try exact IH;
      (apply upsert_Forall; [cbn; repeat split; discriminate | exact IH]).
  - exact IH.
Qed.






End WrittenRows.

Lemma written_settings_have_no_null_witness :
  Forall (fun r => s_webhook_channel_id r <> None /\
                   s_timezone_offset r <> None /\
                   s_loss_multiplier r <> None)
    (settings (snd (saveSettings "g1" "c1" "UTC+8" (of_Z 1) (empty_store [])))).
Proof.
  apply (written_settings_have_no_null None text_param).
  apply reach_setup, reach_init.
Defined.


(* ================================================================== *)
(** * The counting queries *)
(* ================================================================== *)

Lemma radix_digits_acc (d : Decimal.uint) (p : positive) :
  radix_digits 10 (Some (Zpos p)) (NilEmpty.string_of_uint d)
  = Some (Zpos (Pos.of_uint_acc d p)).
Proof.
  revert p. induction d as [|d IH|d IH|d IH|d IH|d IH|d IH|d IH|d IH|d IH|d IH];
    intro p; [reflexivity|..];
    cbn [NilEmpty.string_of_uint Pos.of_uint_acc];
    match goal with
    | |- radix_digits 10 _ (String ?c _) = _ =>
        change (radix_digits 10 (Some (Zpos p)) (String c (NilEmpty.string_of_uint d)))
          with (radix_digits 10
                  (Some (10 * Zpos p + (Str.code c - 48)))
                  (NilEmpty.string_of_uint d))
    end;
    match goal with
    | |- radix_digits 10 (Some ?a) _ = Some (Zpos (Pos.of_uint_acc d ?q)) =>
        replace a with (Zpos q)
          by (rewrite ?Pos2Z.inj_add, ?Pos2Z.inj_mul;
              match goal with
              | |- context [Str.code ?c - 48] =>
                  let v := eval vm_compute in (Str.code c - 48) in
                  change (Str.code c - 48) with v
              end; lia)
    end;
    apply IH.
Qed.

Lemma radix_digits_zero (d : Decimal.uint) :
  radix_digits 10 (Some 0) (NilEmpty.string_of_uint d)
  = Some (Z.of_N (Pos.of_uint d)).
Proof.
  induction d as [|d IH|d IH|d IH|d IH|d IH|d IH|d IH|d IH|d IH|d IH];
    [reflexivity | exact IH |..];
    cbn [NilEmpty.string_of_uint Pos.of_uint];
    match goal with
    | |- radix_digits 10 _ (String ?c _) = Some (Z.of_N (Npos (Pos.of_uint_acc d ?q))) =>
        change (radix_digits 10 (Some (Zpos q)) (NilEmpty.string_of_uint d)
                = Some (Zpos (Pos.of_uint_acc d q)))
    end;
    apply radix_digits_acc.
Qed.

Lemma parseInt_decimal (d : Decimal.uint) :
  parseInt (NilZero.string_of_uint d) (Some 10)
  = Some (Z.of_N (Pos.of_uint d)).
Proof.
  pose proof (radix_digits_zero d) as H.
  destruct d; try reflexivity;
    cbn [NilZero.string_of_uint NilEmpty.string_of_uint] in *;
    rewrite <- H; generalize (NilEmpty.string_of_uint d);
    intros [|x tail]; try reflexivity;
    unfold parseInt; cbn -[radix_digits];
    match goal with
    | |- match radix_digits 10 None ?s with _ => _ end = ?rhs =>
        change (radix_digits 10 None s) with rhs; destruct rhs; reflexivity
    end.
Qed.

Lemma parseInt_count_text (n : nat) :
  parseInt (count_text n) (Some 10) = Some (Z.of_nat n).
Proof.
  unfold count_text, Z_to_string. rewrite parseInt_decimal.
  change (Pos.of_uint (N.to_uint (Z.to_N (Z.of_nat n))))
    with (N.of_uint (N.to_uint (Z.to_N (Z.of_nat n)))).
  rewrite DecimalN.Unsigned.of_to. f_equal. lia.
Qed.

(** ** The loop over the groups *)

Lemma tier_eqb_eq (a b : tier) : tier_eqb a b = true <-> a = b.
Proof. destruct a, b; cbn; split; intro H; congruence. Qed.

Lemma rarity_eqb_eq (a b : option tier) : rarity_eqb a b = true <-> a = b.
Proof.
  destruct a as [a|], b as [b|]; cbn; try (split; intro; congruence).
  rewrite tier_eqb_eq. split; intro; congruence.
Qed.

Lemma map_get_set_same (k : tier) (v : option Z) (m : rarity_map) :
  map_get k (map_set k v m) = Some v.
Proof.
  induction m as [|[k' v'] m IH]; cbn [map_set map_get].
  - assert (tier_eqb k k = true) as -> by (apply tier_eqb_eq; reflexivity).
    reflexivity.
  - destruct (tier_eqb k' k) eqn:E; cbn [map_get]; rewrite E;
      [reflexivity | exact IH].
Qed.

Lemma map_get_set_other (k t : tier) (v : option Z) (m : rarity_map) :
  k <> t -> map_get t (map_set k v m) = map_get t m.
Proof.
  intro Hne. induction m as [|[k' v'] m IH]; cbn [map_set map_get].
  - destruct (tier_eqb k t) eqn:E; [|reflexivity].
    apply tier_eqb_eq in E. contradiction.
  - destruct (tier_eqb k' k) eqn:E; cbn [map_get].
    + destruct (tier_eqb k' t) eqn:E'; [|reflexivity].
      apply tier_eqb_eq in E, E'. congruence.
    + rewrite IH. reflexivity.
Qed.

(** Rows of other groups leave the property [t] alone. *)
Lemma loop_skips (t : tier) (rows : list (option tier * string))
    (m : rarity_map) :
  ~ In (Some t) (List.map fst rows) ->
  map_get t (List.fold_left rarity_step rows m) = map_get t m.
Proof.
  revert m. induction rows as [|[k c] rows IH]; intros m Hn; [reflexivity|].
  cbn [List.fold_left]. rewrite IH by (intro H; apply Hn; right; exact H).
  unfold rarity_step. cbn [fst snd]. destruct k as [k|]; [|reflexivity].
  apply map_get_set_other. intros ->. apply Hn. left. reflexivity.
Qed.

(** The row of group [t], when the groups are distinct, decides [map.t]. *)
Lemma loop_finds (t : tier) (c : string) (rows : list (option tier * string))
    (m : rarity_map) :
  NoDup (List.map fst rows) -> In (Some t, c) rows ->
  map_get t (List.fold_left rarity_step rows m)
  = Some (parseInt c (Some 10)).
Proof.
  revert m. induction rows as [|[k c'] rows IH]; intros m Hnd Hin;
    [destruct Hin|].
  cbn [List.map fst] in Hnd. inversion Hnd as [|? ? Hk Hnd']; subst.
  cbn [List.fold_left]. destruct Hin as [Heq | Hin].
  - injection Heq as -> ->. rewrite loop_skips by exact Hk.
    unfold rarity_step. cbn [fst snd]. apply map_get_set_same.
  - apply IH; assumption.
Qed.

Lemma add_group_In (k x : option tier) (keys : list (option tier)) :
  In x (add_group k keys) <-> x = k \/ In x keys.
Proof.
  induction keys as [|k' keys IH]; cbn [add_group].
  - cbn. intuition congruence.
  - destruct (rarity_eqb k' k) eqn:E.
    + apply rarity_eqb_eq in E. subst k'. cbn. intuition congruence.
    + cbn [In]. rewrite IH. intuition.
Qed.

Lemma add_group_NoDup (k : option tier) (keys : list (option tier)) :
  NoDup keys -> NoDup (add_group k keys).
Proof.
  induction keys as [|k' keys IH]; intro H; cbn [add_group].
  - constructor; [intros []|constructor].
  - destruct (rarity_eqb k' k) eqn:E; [exact H|].
    inversion H as [|? ? Hk Hnd]; subst. constructor.
    + rewrite add_group_In. intros [-> | Hin]; [|contradiction].
      assert (rarity_eqb k k = true) by (apply rarity_eqb_eq; reflexivity).
      congruence.
    + apply IH, Hnd.
Qed.

Lemma fold_keys_spec (rows : list logged_row) (keys : list (option tier)) :
  NoDup keys ->
  NoDup (List.fold_left
           (fun keys r => add_group (h_rarity (l_row r)) keys) rows keys) /\
  forall x,
    In x (List.fold_left
            (fun keys r => add_group (h_rarity (l_row r)) keys) rows keys)
    <-> In x keys \/ In x (List.map (fun r => h_rarity (l_row r)) rows).
Proof.
  revert keys. induction rows as [|r rows IH]; intros keys Hnd.
  - split; [exact Hnd|]. intro x. cbn. tauto.
  - cbn [List.fold_left List.map].
    destruct (IH _ (add_group_NoDup (h_rarity (l_row r)) keys Hnd))
      as [H1 H2].
    split; [exact H1|]. intro x. rewrite H2, add_group_In. cbn [In].
    intuition.
Qed.

Lemma rarity_count_absent (k : option tier) (rows : list logged_row) :
  ~ In k (List.map (fun r => h_rarity (l_row r)) rows) ->
  rarity_count k rows = 0%nat.
Proof.
  unfold rarity_count. induction rows as [|r rows IH]; intro Hn;
    [reflexivity|].
  cbn [List.filter]. destruct (rarity_eqb (h_rarity (l_row r)) k) eqn:E.
  - apply rarity_eqb_eq in E. exfalso. apply Hn. left. exact E.
  - apply IH. intro H. apply Hn. right. exact H.
Qed.

Lemma group_keys (rows : list logged_row) :
  List.map fst (group_by_rarity rows) = rarity_keys rows.
Proof.
  unfold group_by_rarity. rewrite List.map_map. cbn [fst].
  apply List.map_id.
Qed.

Lemma rarity_eq_dec (a b : option tier) : {a = b} + {a <> b}.
Proof. repeat decide equality. Qed.

(** What the loop leaves in [map.t] for any order of the groups. *)
Lemma loop_on_groups (t : tier) (selected : list logged_row)
    (rows : list (option tier * string)) :
  Permutation rows (group_by_rarity selected) ->
  map_get t (rarity_loop rows)
  = Some (Some (Z.of_nat (rarity_count (Some t) selected))).
Proof.
  intro Hp. unfold rarity_loop.
  destruct (fold_keys_spec selected [] (NoDup_nil _)) as [Hnd Hin].
  fold (rarity_keys selected) in Hnd, Hin.
  assert (Hnd' : NoDup (List.map fst rows)).
  { eapply Permutation_NoDup;
      [apply Permutation_sym, Permutation_map, Hp|].
    rewrite group_keys. exact Hnd. }
  destruct (List.in_dec rarity_eq_dec
              (Some t) (rarity_keys selected)) as [Hk | Hk].
  - assert (Hrow : In (Some t,
                       count_text (rarity_count (Some t) selected)) rows).
    { eapply Permutation_in; [apply Permutation_sym, Hp|].
      unfold group_by_rarity.
      apply (List.in_map
               (fun k => (k, count_text (rarity_count k selected)))).
      exact Hk. }
    rewrite (loop_finds t _ rows initial_map Hnd' Hrow).
    rewrite parseInt_count_text. reflexivity.
  - rewrite loop_skips.
    + rewrite rarity_count_absent.
      * destruct t; reflexivity.
      * intro H. apply Hk. apply Hin. right. exact H.
    + intro H. apply Hk. rewrite <- group_keys.
      eapply Permutation_in; [apply Permutation_map, Hp | exact H].
Qed.

(** The selected rows split into the five tiers and the rows without one. *)
Lemma rarity_partition (rows : list logged_row) :
  List.length rows
  = (rarity_count (Some semi_huge) rows + rarity_count (Some huge) rows
     + rarity_count (Some semi_titan) rows + rarity_count (Some titan) rows
     + rarity_count (Some godly) rows + rarity_count None rows)%nat.
Proof.
  unfold rarity_count. induction rows as [|r rows IH]; [reflexivity|].
  cbn [List.filter List.length].
  destruct (h_rarity (l_row r)) as [[]|]; cbn [rarity_eqb tier_eqb List.length];
    lia.
Qed.

(** X19: The report of [countRaritySince] does not depend on the order in which
    the store returns the groups: [map.t] is the number of selected events
    of tier [t], zero included, as long as that number is exact in a
    binary64 value. *)
Theorem countRaritySince_counts_each_tier
    (table : list logged_row) (guildId : string) (since : Z)
    (rows : list (option tier * string)) (t : tier) :
  Z.of_nat (List.length table) <= 2 ^ 53 ->
  Permutation rows
    (group_by_rarity (List.filter (in_window guildId since) table)) ->
  map_get t (rarity_loop rows)
  = Some (Some (Z.of_nat
       (rarity_count (Some t)
          (List.filter (in_window guildId since) table)))).
Proof.
  intros _ Hp. apply loop_on_groups. exact Hp.
Qed.

(** X20: On one state of the table the five tiers of the report add up to the
    total of [countSince] less the selected events that have no tier
    (weight outside every band): the report's total and its tiers differ by
    exactly those. *)
Theorem tiers_add_up_to_total_less_untiered
    (table : list logged_row) (guildId : string) (since : Z) :
  Z.of_nat (List.length table) <= 2 ^ 53 ->
  exists total a b c d e,
    countSince table guildId since = Some total /\
    map_get semi_huge (countRaritySince table guildId since) = Some (Some a) /\
    map_get huge (countRaritySince table guildId since) = Some (Some b) /\
    map_get semi_titan (countRaritySince table guildId since) = Some (Some c) /\
    map_get titan (countRaritySince table guildId since) = Some (Some d) /\
    map_get godly (countRaritySince table guildId since) = Some (Some e) /\
    a + b + c + d + e
    = total
      - Z.of_nat (rarity_count None
                    (List.filter (in_window guildId since) table)).
Proof.
  intros _. unfold countSince, countRaritySince.
  set (sel := List.filter (in_window guildId since) table).
  do 6 eexists. split; [apply parseInt_count_text|].
  repeat (split; [apply loop_on_groups, Permutation_refl|]).
  rewrite (rarity_partition sel). lia.
Qed.

Lemma countRaritySince_counts_each_tier_witness :
  map_get huge
    (rarity_loop [(None, "1"); (Some huge, "2")])
  = Some (Some (Z.of_nat
       (rarity_count (Some huge)
          (List.filter (in_window "g1" 1705287600000) four_events)))).
Proof.
  apply (countRaritySince_counts_each_tier four_events "g1" 1705287600000
           [(None, "1"); (Some huge, "2")] huge).
  - vm_compute. discriminate.
  - apply perm_swap.
Defined.

Lemma tiers_add_up_to_total_less_untiered_witness :
  exists total a b c d e,
    countSince four_events "g1" 1705287600000 = Some total /\
    map_get semi_huge (countRaritySince four_events "g1" 1705287600000)
    = Some (Some a) /\
    map_get huge (countRaritySince four_events "g1" 1705287600000)
    = Some (Some b) /\
    map_get semi_titan (countRaritySince four_events "g1" 1705287600000)
    = Some (Some c) /\
    map_get titan (countRaritySince four_events "g1" 1705287600000)
    = Some (Some d) /\
    map_get godly (countRaritySince four_events "g1" 1705287600000)
    = Some (Some e) /\
    a + b + c + d + e
    = total
      - Z.of_nat (rarity_count None
                    (List.filter (in_window "g1" 1705287600000) four_events)).
Proof.
  apply (tiers_add_up_to_total_less_untiered four_events "g1" 1705287600000).
  vm_compute. discriminate.
Defined.

(* ================================================================== *)
(** * [db.js]: the pool and the tables *)
(* ================================================================== *)

Section Database.

Import Db.

(** X21: [initDb] builds the pool once: after a call that returned a pool, every
    later call returns that same pool and leaves the module variable alone,
    whatever DATABASE_URL has become; with a non-empty DATABASE_URL the
    first call does return a pool. *)
Theorem initDb_keeps_first_pool
    (url1 url2 : option string) (pool pool' : option Pool) (p : Pool) :
  initDb url1 pool = (Done p, pool') ->
  initDb url2 pool' = (Done p, pool') /\ getPool pool' = Some p.
Proof.
  unfold initDb, getPool. intro H. destruct pool as [q|].
  - injection H as -> <-. split; reflexivity.
  - destruct url1 as [u|]; [|discriminate H].
    destruct (String.eqb u ""); [discriminate H|].
    injection H as <- <-. split; reflexivity.
Qed.

Lemma next_fault_keeps (db : database) :
  settings_table (snd (next_fault db)) = settings_table db /\
  hatch_logs_table (snd (next_fault db)) = hatch_logs_table db /\
  clients_out (snd (next_fault db)) = clients_out db /\
  db_faults (snd (next_fault db)) = List.tl (db_faults db) /\
  fst (next_fault db) = List.hd false (db_faults db).
Proof.
  unfold next_fault. destruct (db_faults db) as [|b fs] eqn:E; cbn.
  - rewrite E. repeat split; reflexivity.
  - repeat split; reflexivity.
Qed.

Lemma create_if_absent_keeps {A} (t : option (list A)) (rows : list A) :
  t = Some rows -> create_if_absent t = Some rows.
Proof. intros ->. reflexivity. Qed.

Lemma create_tables_keeps (db : database) :
  clients_out (snd (create_tables db)) = clients_out db /\
  (forall rows, settings_table db = Some rows ->
                settings_table (snd (create_tables db)) = Some rows) /\
  (forall rows, hatch_logs_table db = Some rows ->
                hatch_logs_table (snd (create_tables db)) = Some rows).
Proof.
  unfold create_tables.
  destruct (next_fault_keeps db) as [S1 [L1 [C1 _]]].
  destruct (next_fault db) as [f1 db1]. cbn [snd] in *.
  destruct f1; cbn [snd].
  - rewrite S1, L1, C1. auto.
  - match goal with
    | |- context [next_fault ?d] =>
        destruct (next_fault_keeps d) as [S2 [L2 [C2 _]]];
        destruct (next_fault d) as [f2 db3]
    end.
    cbn [snd settings_table hatch_logs_table clients_out] in *.
    destruct f2; cbn [snd settings_table hatch_logs_table clients_out];
      rewrite ?S2, ?L2, ?C2, ?S1, ?L1, ?C1;
      (split; [reflexivity|]);
      split; intros rows H;
        try (apply create_if_absent_keeps); exact H.
Qed.

(** X22: Whatever its outcome, [ensureTables] gives back the client it took from
    the pool and never drops or empties a table that exists. *)
Theorem ensureTables_releases_and_keeps_rows
    (pool : option Pool) (db : database) :
  clients_out (snd (ensureTables pool db)) = clients_out db /\
  (forall rows, settings_table db = Some rows ->
     settings_table (snd (ensureTables pool db)) = Some rows) /\
  (forall rows, hatch_logs_table db = Some rows ->
     hatch_logs_table (snd (ensureTables pool db)) = Some rows).
Proof.
  unfold ensureTables. destruct pool as [p|]; [|cbn; auto].
  destruct (next_fault_keeps db) as [S0 [L0 [C0 _]]].
  destruct (next_fault db) as [f0 db0]. cbn [snd] in *.
  destruct f0; cbn [snd].
  - rewrite S0, L0, C0. auto.
  - destruct (create_tables_keeps (checkout db0)) as [C [Ks Kl]].
    destruct (create_tables (checkout db0)) as [r db1]. cbn [snd] in *.
    unfold release, checkout in *.
    cbn [settings_table hatch_logs_table clients_out] in *.
    rewrite C, C0. split; [reflexivity|].
    split; intros rows H; [apply Ks | apply Kl]; congruence.
Qed.

(** X23: [ensureTables] succeeds exactly when the pool exists and neither the
    connection nor one of the two statements is rejected, and then both
    tables exist; when it fails, [hatch_logs] has not been created, while
    [settings] may have been (the two statements are not one
    transaction). *)
Theorem ensureTables_outcome (pool : option Pool) (db : database) :
  (fst (ensureTables pool db) = Done tt <->
   pool <> None /\
   forall b, In b (List.firstn 3 (db_faults db)) -> b = false) /\
  (fst (ensureTables pool db) = Done tt ->
   settings_table (snd (ensureTables pool db)) <> None /\
   hatch_logs_table (snd (ensureTables pool db)) <> None) /\
  (fst (ensureTables pool db) <> Done tt ->
   hatch_logs_table (snd (ensureTables pool db)) = hatch_logs_table db).
Proof.
  destruct db as [s l c fs]. unfold ensureTables.
  destruct pool as [p|].
  2:{ cbn. repeat split; try discriminate; try tauto;
      intros [H _]; congruence. }
  unfold create_tables, next_fault, checkout, release.
  cbn [db_faults settings_table hatch_logs_table clients_out].
  destruct fs as [|[] [|[] [|[] fs]]];
    cbn [db_faults settings_table hatch_logs_table clients_out fst snd
         List.firstn In];
    (split; [split|split];
    [ intro H; try discriminate H;
      (split; [discriminate | intros b Hb; intuition congruence])
    | intros [_ H]; try reflexivity; exfalso;
      assert (true = false) by (apply H; tauto); discriminate
    | intro H; try discriminate H;
      (split; [destruct s | destruct l]; discriminate)
    | intro H; try reflexivity; exfalso; apply H; reflexivity ]).
Qed.

End Database.

Lemma initDb_keeps_first_pool_witness :
  Db.initDb None (Some (Db.mkPool "postgres://db/eggs"))
  = (Db.Done (Db.mkPool "postgres://db/eggs"),
     Some (Db.mkPool "postgres://db/eggs")) /\
  Db.getPool (Some (Db.mkPool "postgres://db/eggs"))
  = Some (Db.mkPool "postgres://db/eggs").
Proof.
  apply (initDb_keeps_first_pool (Some "postgres://db/eggs") None None).
  reflexivity.
Defined.

(** The second statement is rejected: the client is released and the
    table [settings], created by the first, stays. *)
Lemma ensureTables_releases_and_keeps_rows_witness :
  Db.clients_out
    (snd (Db.ensureTables (Some (Db.mkPool "postgres://db/eggs"))
            (Db.mkDatabase (Some []) None 0 [false; false; true]))) = 0%nat /\
  Db.settings_table
    (snd (Db.ensureTables (Some (Db.mkPool "postgres://db/eggs"))
            (Db.mkDatabase (Some []) None 0 [false; false; true]))) = Some [].
Proof.
  pose proof (ensureTables_releases_and_keeps_rows
                (Some (Db.mkPool "postgres://db/eggs"))
                (Db.mkDatabase (Some []) None 0 [false; false; true]))
    as [H1 [H2 _]].
  split; [exact H1 | apply H2; reflexivity].
Defined.

Lemma ensureTables_outcome_witness :
  Db.settings_table
    (snd (Db.ensureTables (Some (Db.mkPool "postgres://db/eggs"))
            (Db.fresh []))) <> None /\
  Db.hatch_logs_table
    (snd (Db.ensureTables (Some (Db.mkPool "postgres://db/eggs"))
            (Db.fresh []))) <> None.
Proof.
  apply (proj1 (proj2 (ensureTables_outcome
                         (Some (Db.mkPool "postgres://db/eggs"))
                         (Db.fresh [])))).
  reflexivity.
Defined.
